(** * LineVul_pa: dataset extraction, normalisation, deduplication, splitting
    and augmentation

    A shallow embedding of the data-preparation scripts

      - [data/reposvul_dataset/01_transform_dataset.py]  (module [Transform])
      - [data/primevul_dataset/02_transform_dataset.py]   (module [PrimeVul])
      - [data/llm_datasets/03_augment_with_llm.py]        (module [Augment])

    together with the part of the Python run time they rely on (module [Py]).

    Conventions.
      - A Python [str] is a Rocq [string] whose characters are read as the
        code points 0..255; [str.strip], [str.lower] and the UTF-8 encoding
        are the restrictions of Python's to that range.
      - A Python [float] is a [spec_float] of the Standard Library, with the
        operations of binary64 (53 bits of precision, [emax = 1024]).
      - A Python [int] is a [Z].
      - A call that may raise returns a [result]; a generator that may raise
        after it has yielded returns what it yielded together with the
        exception.
      - What the third-party libraries compute and the scripts only pass
        along (the text of a [repr], the JSON decoder, pandas' parser of
        numbers, the random generator) is a [Variable] of the section that
        uses it: the theorems hold for every such function. *)

From Stdlib Require Import ZArith QArith String Ascii DecimalString SpecFloat
  Permutation.
From stdpp Require Import base numbers option list gmap sets strings.

Set Warnings "-register-all,-clear-no-such-hyp".

Local Open Scope string_scope.
Local Open Scope Z_scope.

(* ===================================================================== *)
(** * The Python run time *)
(* ===================================================================== *)

Module Py.

(** ** Exceptions and results *)

Inductive exn : Type :=
  | ValueError
  | OverflowError
  | AttributeError
  | KeyError
  | IndexError
  | JSONDecodeError.

Inductive result (A : Type) : Type :=
  | Ok (a : A)
  | Raise (e : exn).
Arguments Ok {A} a.
Arguments Raise {A} e.

#[global] Instance result_ret : MRet result := fun A a => Ok a.

#[global] Instance result_bind : MBind result := fun A B k r =>
  match r with
  | Ok a => k a
  | Raise e => Raise e
  end.

Definition is_ok {A : Type} (r : result A) : bool :=
  match r with Ok _ => true | Raise _ => false end.

(** ** Text *)

(** [str.isspace] on the code points below 256: TAB..CR, FS..US, SPACE,
    NEXT LINE (U+0085) and NO-BREAK SPACE (U+00A0). *)
Definition isspace (c : ascii) : bool :=
  let n := nat_of_ascii c in
  (((9 <=? n) && (n <=? 13)) || ((28 <=? n) && (n <=? 32))
   || (n =? 133) || (n =? 160))%nat.

(** [str.lower] on one code point below 256: A..Z and the accented capitals
    U+00C0..U+00DE (the multiplication sign U+00D7 apart) move up by 32. *)
Definition lower_char (c : ascii) : ascii :=
  let n := nat_of_ascii c in
  if (((65 <=? n) && (n <=? 90))
      || ((192 <=? n) && (n <=? 222) && negb (n =? 215)))%nat
  then ascii_of_nat (n + 32)
  else c.

Fixpoint lstrip_chars (l : list ascii) : list ascii :=
  match l with
  | c :: t => if isspace c then lstrip_chars t else l
  | [] => []
  end.

Definition strip_chars (l : list ascii) : list ascii :=
  rev (lstrip_chars (rev (lstrip_chars l))).

(** [s.strip()] *)
Definition strip (s : string) : string :=
  string_of_list_ascii (strip_chars (list_ascii_of_string s)).

(** [s.lower()] *)
Definition lower (s : string) : string :=
  string_of_list_ascii (map lower_char (list_ascii_of_string s)).

Fixpoint starts_with (p l : list ascii) : bool :=
  match p, l with
  | [], _ => true
  | a :: p', b :: l' => if Ascii.eqb a b then starts_with p' l' else false
  | _ :: _, [] => false
  end.

(** [s.replace(old, new)] for a non-empty [old]: the occurrences are found
    from the left and do not overlap.  [skip] counts the characters of an
    occurrence that are still to be passed over. *)
Fixpoint replace_chars (old new : list ascii) (skip : nat) (l : list ascii)
  : list ascii :=
  match l with
  | [] => []
  | c :: t =>
      match skip with
      | S k => replace_chars old new k t
      | O =>
          if starts_with old l
          then new ++ replace_chars old new (length old - 1)%nat t
          else c :: replace_chars old new 0%nat t
      end
  end.

Definition replace (old new s : string) : string :=
  string_of_list_ascii
    (replace_chars (list_ascii_of_string old) (list_ascii_of_string new) 0%nat
       (list_ascii_of_string s)).

Definition NUL : string := String (ascii_of_nat 0) EmptyString.
Definition CR : string := String (ascii_of_nat 13) EmptyString.
Definition LF : string := String (ascii_of_nat 10) EmptyString.
Definition CRLF : string := CR ++ LF.

(** The three lines both scripts' [clean_code] end with:
<<
    s = s.replace("\x00", "")
    s = s.replace("\r\n", "\n").replace("\r", "\n")
    return s.strip()
>> *)
Definition clean_text (s : string) : string :=
  strip (replace CR LF (replace CRLF LF (replace NUL "" s))).

(** [str(n)] for an [int]. *)
Definition str_of_int (z : Z) : string := NilZero.string_of_int (Z.to_int z).

(** ** Floats *)

Definition prec : Z := 53.
Definition emax : Z := 1024.

(** [float(n)] for an [int] (rounded to nearest, ties to even). *)
Definition float_of_int (n : Z) : spec_float :=
  binary_normalize prec emax n 0 false.

(** [x * y] on floats. *)
Definition float_mul (x y : spec_float) : spec_float := SFmul prec emax x y.

(** The magnitude of a finite float, rounded down to an integer. *)
Definition floor_mag (m : positive) (e : Z) : Z :=
  if 0 <=? e then Z.pos m * 2 ^ e else Z.pos m / 2 ^ (- e).

(** [int(x)] for a float: truncation toward zero; [int(nan)] raises
    [ValueError] and [int(inf)] raises [OverflowError]. *)
Definition int_of_float (x : spec_float) : result Z :=
  match x with
  | S754_zero _ => Ok 0
  | S754_finite s m e => Ok (if s then - floor_mag m e else floor_mag m e)
  | S754_nan => Raise ValueError
  | S754_infinity _ => Raise OverflowError
  end.

(** The rational number a finite float stands for. *)
Definition float_value (x : spec_float) : option Q :=
  match x with
  | S754_zero _ => Some 0%Q
  | S754_finite s m e =>
      let mag :=
        if 0 <=? e then inject_Z (Z.pos m * 2 ^ e)
        else Qmake (Z.pos m) (Z.to_pos (2 ^ (- e))) in
      Some (if s then Qopp mag else mag)
  | S754_infinity _ | S754_nan => None
  end.

(** ** SHA-256 (FIPS 180-4), as [hashlib.sha256] computes it *)

Definition w32 (x : Z) : Z := x mod 2 ^ 32.
Definition add32 (x y : Z) : Z := w32 (x + y).
Definition not32 (x : Z) : Z := Z.lxor x (2 ^ 32 - 1).
Definition rotr (n x : Z) : Z :=
  Z.lor (Z.shiftr x n) (w32 (Z.shiftl x (32 - n))).

Definition is_prime (n : Z) : bool :=
  forallb (fun d => negb (n mod d =? 0))
    (map Z.of_nat (seq 2 (Z.to_nat (Z.sqrt n) - 1))).

Definition first_primes (k : nat) : list Z :=
  take k (List.filter is_prime (map Z.of_nat (seq 2 400))).

(** The integer cube root, one bit at a time from bit [bits - 1] down. *)
Fixpoint icbrt_bits (bits : nat) (n r : Z) : Z :=
  match bits with
  | O => r
  | S b =>
      let r' := r + 2 ^ Z.of_nat b in
      icbrt_bits b n (if r' * r' * r' <=? n then r' else r)
  end.

Definition icbrt (n : Z) : Z := icbrt_bits 48 n 0.

(** The first 32 bits of the fractional parts of the square roots of the
    first 8 primes, and of the cube roots of the first 64. *)
Definition initial_hash : list Z := Eval vm_compute in
  map (fun p => w32 (Z.sqrt (p * 2 ^ 64))) (first_primes 8).

Definition round_constants : list Z := Eval vm_compute in
  map (fun p => w32 (icbrt (p * 2 ^ 96))) (first_primes 64).

Definition big_sigma0 (x : Z) : Z :=
  Z.lxor (Z.lxor (rotr 2 x) (rotr 13 x)) (rotr 22 x).
Definition big_sigma1 (x : Z) : Z :=
  Z.lxor (Z.lxor (rotr 6 x) (rotr 11 x)) (rotr 25 x).
Definition small_sigma0 (x : Z) : Z :=
  Z.lxor (Z.lxor (rotr 7 x) (rotr 18 x)) (Z.shiftr x 3).
Definition small_sigma1 (x : Z) : Z :=
  Z.lxor (Z.lxor (rotr 17 x) (rotr 19 x)) (Z.shiftr x 10).
Definition Ch (x y z : Z) : Z := Z.lxor (Z.land x y) (Z.land (not32 x) z).
Definition Maj (x y z : Z) : Z :=
  Z.lxor (Z.lxor (Z.land x y) (Z.land x z)) (Z.land y z).

(** The message schedule, newest word first: [k] more words are added to
    the sixteen of the block. *)
Fixpoint schedule (k : nat) (w : list Z) : list Z :=
  match k with
  | O => w
  | S k' =>
      let g i := nth i w 0 in
      schedule k'
        (add32 (add32 (small_sigma1 (g 1%nat)) (g 6%nat))
           (add32 (small_sigma0 (g 14%nat)) (g 15%nat)) :: w)
  end.

Definition sha_round (st : list Z) (kw : Z * Z) : list Z :=
  match st with
  | [a; b; c; d; e; f; g; h] =>
      let t1 :=
        add32 (add32 (add32 h (big_sigma1 e)) (add32 (Ch e f g) kw.1)) kw.2 in
      let t2 := add32 (big_sigma0 a) (Maj a b c) in
      [add32 t1 t2; a; b; c; add32 d t1; e; f; g]
  | _ => st
  end.

Definition compress (h : list Z) (block : list Z) : list Z :=
  let w := rev (schedule 48 (rev block)) in
  let st := fold_left sha_round (combine round_constants w) h in
  map (fun p => add32 p.1 p.2) (combine h st).

Fixpoint words_of (fuel : nat) (bs : list Z) : list Z :=
  match fuel, bs with
  | S k, b0 :: b1 :: b2 :: b3 :: t =>
      (((b0 * 256 + b1) * 256 + b2) * 256 + b3) :: words_of k t
  | _, _ => []
  end.

Fixpoint blocks_of (fuel : nat) (ws : list Z) : list (list Z) :=
  match fuel with
  | O => []
  | S k =>
      match ws with
      | [] => []
      | _ => take 16 ws :: blocks_of k (drop 16 ws)
      end
  end.

Definition pad (msg : list Z) : list Z :=
  let len := Z.of_nat (length msg) in
  let zeros := Z.to_nat ((55 - len) mod 64) in
  (msg ++ [128] ++ replicate zeros 0
     ++ map (fun i => (8 * len / 256 ^ Z.of_nat (7 - i)) mod 256) (seq 0 8))%list.

Definition sha256 (msg : list Z) : list Z :=
  let p := pad msg in
  let ws := words_of (length p) p in
  fold_left compress (blocks_of (length ws) ws) initial_hash.

Definition hex_digit (d : Z) : ascii :=
  ascii_of_nat (Z.to_nat (if d <? 10 then 48 + d else 87 + d)).

Definition hex_of_word (w : Z) : list ascii :=
  map (fun i => hex_digit ((w / 16 ^ Z.of_nat (7 - i)) mod 16)) (seq 0 8).

(** [.hexdigest()] *)
Definition hexdigest (h : list Z) : string :=
  string_of_list_ascii (concat (map hex_of_word h)).

(** [s.encode("utf-8")] on code points below 256: one byte below 128, two
    from there on. *)
Definition utf8_encode (s : string) : list Z :=
  concat
    (map (fun c =>
            let n := Z.of_nat (nat_of_ascii c) in
            if n <? 128 then [n] else [192 + n / 64; 128 + n mod 64])
       (list_ascii_of_string s)).

(** ** The values [json.loads] builds *)

Inductive json : Type :=
  | JNull
  | JBool (b : bool)
  | JInt (z : Z)
  | JFloat (x : spec_float)
  | JStr (s : string)
  | JList (l : list json)
  | JDict (d : gmap string json).

(** [bool(v)]: [None], [False], zero, and the empty string, list and dict
    are false. *)
Definition truthy (v : json) : bool :=
  match v with
  | JNull => false
  | JBool b => b
  | JInt z => negb (z =? 0)
  | JFloat (S754_zero _) => false
  | JFloat _ => true
  | JStr s => negb (String.eqb s "")
  | JList l => match l with [] => false | _ => true end
  | JDict d => negb (bool_decide (d = ∅))
  end.

(** [a or b] *)
Definition por (a b : json) : json := if truthy a then a else b.

(** [d.get(k)] on a dict: [None] when the key is absent. *)
Definition dict_get (d : gmap string json) (k : string) : json :=
  default JNull (d !! k).

End Py.

(* ===================================================================== *)
(** * data/reposvul_dataset/01_transform_dataset.py *)
(* ===================================================================== *)

Module Transform.
Import Py.

(** [as_list(x)] *)
Definition as_list (x : json) : list json :=
  match x with
  | JNull => []
  | JList l => l
  | _ => [x]
  end.

(** [to_int_label(x)]: [None] is [Ok None]; [int(x)] raises on a float that
    is not finite. *)
Definition to_int_label (x : json) : result (option Z) :=
  match x with
  | JNull => Ok None
  | JBool b => Ok (Some (Z.b2z b))
  | JInt v => Ok (if bool_decide (v = 0 \/ v = 1) then Some v else None)
  | JFloat f =>
      v ← int_of_float f;
      Ok (if bool_decide (v = 0 \/ v = 1) then Some v else None)
  | JStr s =>
      let t := lower (strip s) in
      if bool_decide (t = "0" \/ t = "1")
      then Ok (Some (if bool_decide (t = "1") then 1 else 0))
      else if bool_decide (t = "false" \/ t = "true")
      then Ok (Some (if bool_decide (t = "true") then 1 else 0))
      else Ok None
  | JList _ | JDict _ => Ok None
  end.

Section Extractor.

(** [str(v)] for a float, a list or a dict: the text of Python's [repr]. *)
Variable repr_value : json -> string.

(** [str(v)] *)
Definition str_of (v : json) : string :=
  match v with
  | JStr s => s
  | JInt z => str_of_int z
  | JBool b => if b then "True" else "False"
  | JNull => "None"
  | JFloat _ | JList _ | JDict _ => repr_value v
  end.

(** [clean_code(s)] *)
Definition clean_code (s : json) : string :=
  if truthy s then clean_text (str_of s) else "".

Definition get_fb_code_and_label (x : json) : result (string * option Z) :=
  match x with
  | JDict d =>
      let code :=
        clean_code
          (por (por (por (dict_get d "function") (dict_get d "code_before"))
                  (dict_get d "code"))
             (JStr "")) in
      lab ← to_int_label (dict_get d "target");
      Ok (code, lab)
  | JStr _ => Ok (clean_code x, None)
  | _ => Ok ("", None)
  end.

Definition get_fa_code (x : json) : string :=
  match x with
  | JDict d =>
      clean_code (por (por (dict_get d "function") (dict_get d "code")) (JStr ""))
  | JStr _ => clean_code x
  | _ => ""
  end.

(** [extract_code_and_label(detail)] *)
Definition extract_code_and_label (detail : gmap string json)
  : result (string * option Z * string) :=
  let fb := dict_get detail "function_before" in
  let fa := dict_get detail "function_after" in
  let fb_items := as_list fb in
  '(before_code, label) ←
     match fb_items with
     | x :: _ => get_fb_code_and_label x
     | [] => Ok ("", None)
     end;
  let before_code :=
    if bool_decide (before_code = "")
    then clean_code (por (por (dict_get detail "code_before")
                            (dict_get detail "code")) (JStr ""))
    else before_code in
  label ←
     match label with
     | None => to_int_label (dict_get detail "target")
     | Some _ => Ok label
     end;
  let fa_items := as_list fa in
  let after_code :=
    match fa_items with
    | x :: _ => get_fa_code x
    | [] => ""
    end in
  let after_code :=
    if bool_decide (after_code = "")
    then clean_code (por (dict_get detail "patch") (JStr ""))
    else after_code in
  let after_code :=
    if bool_decide (after_code = "") then before_code else after_code in
  Ok (before_code, label, after_code).

(** ** The row builder *)

(** The dictionaries [iter_rows] yields. *)
Record row : Type := Row {
  processed_func : string;
  target : Z;
  vul_func_with_fix : string;
  cve_id : json;
  cwe_id : json;
  commit_id : json;
  file_path : json;
  file_language : string
}.

(** The [Counter] of skip reasons; a key that was never counted reads 0. *)
Definition Counter : Type := gmap string nat.

Definition count (st : Counter) (k : string) : nat := default 0%nat (st !! k).

(** [stats[k] += 1] *)
Definition incr (k : string) (st : Counter) : Counter :=
  <[k := S (count st k)]> st.

(** [v.strip()] for the value of an [or] chain: only a [str] has the method. *)
Definition strip_value (v : json) : result string :=
  match v with
  | JStr s => Ok (strip s)
  | _ => Raise AttributeError
  end.

(** The body of [for d in as_list(details)]: the row it yields, if any, and
    the counter after it. *)
Definition iter_detail (obj : gmap string json) (d : json) (st : Counter)
  : result (option row * Counter) :=
  match d with
  | JDict dd =>
      file_lang ←
        strip_value (por (por (dict_get dd "file_language")
                            (dict_get obj "cve_language")) (JStr ""));
      '(before_code, label, after_code) ← extract_code_and_label dd;
      if bool_decide (before_code = "")
      then Ok (None, incr "skip_no_code" st)
      else
        match label with
        | None => Ok (None, incr "skip_no_label" st)
        | Some l =>
            Ok (Some {| processed_func := before_code;
                        target := l;
                        vul_func_with_fix := after_code;
                        cve_id := por (dict_get obj "cve_id") (JStr "");
                        cwe_id := por (dict_get obj "cwe_id") (JStr "");
                        commit_id := por (dict_get obj "commit_id") (JStr "");
                        file_path := por (dict_get dd "file_path") (JStr "");
                        file_language := file_lang |},
                incr "kept" st)
        end
  | _ => Ok (None, incr "skip_detail_not_dict" st)
  end.

(** What a run of the generator leaves behind: the rows it yielded, the
    counter, and the exception that ended it, if one did. *)
Record run : Type := Run {
  yielded : list row;
  stats : Counter;
  raised : option exn
}.

Definition yield_before (rs : list row) (r : run) : run :=
  {| yielded := rs ++ yielded r; stats := stats r; raised := raised r |}.

Fixpoint iter_details (obj : gmap string json) (ds : list json) (st : Counter)
  : run :=
  match ds with
  | [] => Run [] st None
  | d :: ds' =>
      match iter_detail obj d st with
      | Raise e => Run [] st (Some e)
      | Ok (r, st') => yield_before (option_list r) (iter_details obj ds' st')
      end
  end.

(** [json.loads]: [None] stands for [JSONDecodeError]. *)
Variable json_loads : string -> option json.

(** [read_jsonl(path)], on the lines of the file: the objects it yields
    before it ends or raises. *)
Fixpoint read_jsonl (lines : list string) : list json * option exn :=
  match lines with
  | [] => ([], None)
  | line :: rest =>
      let line := strip line in
      if bool_decide (line = "") then read_jsonl rest
      else
        match json_loads line with
        | None => ([], Some JSONDecodeError)
        | Some obj => let '(objs, e) := read_jsonl rest in (obj :: objs, e)
        end
  end.

(** The body of [for obj in read_jsonl(jsonl_path)], then the rest of the
    loop; [e] is the exception the reader raises after its last object. *)
Fixpoint iter_objects (objs : list json) (e : option exn) (st : Counter) : run :=
  match objs with
  | [] => Run [] st e
  | JDict obj :: rest =>
      match dict_get obj "details" with
      | JNull => iter_objects rest e (incr "skip_no_details" st)
      | details =>
          let r := iter_details obj (as_list details) st in
          match raised r with
          | Some _ => r
          | None => yield_before (yielded r) (iter_objects rest e (stats r))
          end
      end
  | _ :: _ => Run [] st (Some AttributeError)
  end.

(** [iter_rows(jsonl_path, filter_lang, stats, debug_n)] on the lines of the
    file; the language filter is commented out in the source and the debug
    prints change nothing that is returned. *)
Definition iter_rows (lines : list string) (st : Counter) : run :=
  let '(objs, e) := read_jsonl lines in iter_objects objs e st.

End Extractor.

(** ** The stratified splitter *)

Section Splitter.

(** The hidden generator of the [random] module: its state, the state
    [random.seed(seed)] puts it in, and [_randbelow(n)], which draws a
    number below [n] and moves the state on. *)
Variable rng : Type.
Variable seed_rng : Z -> rng.
Variable randbelow : nat -> rng -> nat * rng.

(** [x[i], x[j] = x[j], x[i]] *)
Definition swap {A : Type} (i j : nat) (x : list A) : result (list A) :=
  match x !! i, x !! j with
  | Some a, Some b => Ok (<[j := a]> (<[i := b]> x))
  | _, _ => Raise IndexError
  end.

(** The loop of [random.shuffle]:
<<
    for i in reversed(range(1, len(x))):
        j = randbelow(i + 1)
        x[i], x[j] = x[j], x[i]
>> *)
Fixpoint shuffle_loop {A : Type} (i : nat) (x : list A) (g : rng)
  : result (list A * rng) :=
  match i with
  | O => Ok (x, g)
  | S i' =>
      let '(j, g') := randbelow (i + 1) g in
      x' ← swap i j x;
      shuffle_loop i' x' g'
  end.

(** [random.shuffle(x)] *)
Definition shuffle {A : Type} (x : list A) (g : rng) : result (list A * rng) :=
  shuffle_loop (length x - 1) x g.

(** A slice bound as Python reads it in a list of [len] items: a negative
    bound counts from the end, and both ends are clamped. *)
Definition bound (len : nat) (i : Z) : nat :=
  if i <? 0 then Z.to_nat (Z.max 0 (Z.of_nat len + i))
  else Z.to_nat (Z.min i (Z.of_nat len)).

(** [b[i:j]] *)
Definition slice {A : Type} (b : list A) (i j : Z) : list A :=
  let lo := bound (length b) i in
  let hi := bound (length b) j in
  take (hi - lo) (drop lo b).

(** [b[i:]] *)
Definition slice_from {A : Type} (b : list A) (i : Z) : list A :=
  drop (bound (length b) i) b.

(** [int(n * r)] for a list length [n] and a float [r]. *)
Definition scaled (n : nat) (r : spec_float) : result Z :=
  int_of_float (float_mul (float_of_int (Z.of_nat n)) r).

(** [split_bucket(b)]; the third ratio is never read. *)
Definition split_bucket {A : Type} (ratios : spec_float * spec_float * spec_float)
    (b : list A) : result (list A * list A * list A) :=
  let n := length b in
  n_tr ← scaled n ratios.1.1;
  n_va ← scaled n ratios.1.2;
  Ok (slice b 0 n_tr, slice b n_tr (n_tr + n_va), slice_from b (n_tr + n_va)).

(** [stratified_split(rows, seed, ratios)].  [g0] is the state the module's
    generator is in when the function is called; the result comes with the
    state it is left in. *)
Definition stratified_split (rows : list row) (seed : Z)
    (ratios : spec_float * spec_float * spec_float) (g0 : rng)
  : result (list row * list row * list row * rng) :=
  let g := seed_rng seed in
  let pos := filter (fun r => target r = 1) rows in
  let neg := filter (fun r => target r = 0) rows in
  '(pos, g) ← shuffle pos g;
  '(neg, g) ← shuffle neg g;
  '(p_tr, p_va, p_te) ← split_bucket ratios pos;
  '(n_tr, n_va, n_te) ← split_bucket ratios neg;
  let train := (p_tr ++ n_tr)%list in
  let val := (p_va ++ n_va)%list in
  let test := (p_te ++ n_te)%list in
  '(train, g) ← shuffle train g;
  '(val, g) ← shuffle val g;
  '(test, g) ← shuffle test g;
  Ok (train, val, test, g).

End Splitter.

(** The default [ratios=(0.8, 0.1, 0.1)], as the doubles Python reads. *)
Definition ratio_0_8 : spec_float := S754_finite false 7205759403792794 (-53).
Definition ratio_0_1 : spec_float := S754_finite false 7205759403792794 (-56).
Definition default_ratios : spec_float * spec_float * spec_float :=
  (ratio_0_8, ratio_0_1, ratio_0_1).

End Transform.

(* ===================================================================== *)
(** * data/primevul_dataset/02_transform_dataset.py *)
(* ===================================================================== *)

Module PrimeVul.
Import Py.

(** [p in s] for two strings. *)
Fixpoint contains_chars (p l : list ascii) : bool :=
  starts_with p l ||
  match l with
  | [] => false
  | _ :: t => contains_chars p t
  end.

Definition contains (p s : string) : bool :=
  contains_chars (list_ascii_of_string p) (list_ascii_of_string s).

Definition cpp_markers : list string :=
  [ "::"; "template<"; "std::"; "using namespace"; "new "; "delete ";
    "noexcept"; "nullptr"; "friend "; "virtual "; "public:"; "private:";
    "protected:"; "constexpr"; "decltype"; "typename"; "explicit"; "mutable";
    "static_cast<"; "dynamic_cast<"; "reinterpret_cast<"; "const_cast<" ].

(** [looks_like_cpp(func)] *)
Definition looks_like_cpp (func : string) : bool :=
  let lower := lower func in
  existsb (fun marker => contains marker lower) cpp_markers.

(** [sample.get(k, "")] *)
Definition get_or_empty (sample : gmap string json) (k : string) : json :=
  default (JStr "") (sample !! k).

(** [is_c_function(sample)] *)
Definition is_c_function (sample : gmap string json) : bool :=
  match get_or_empty sample "func" with
  | JStr func =>
      if bool_decide (func = "") then false
      else if looks_like_cpp func then false
      else if negb (contains "(" func) || negb (contains ")" func)
              || negb (contains "{" func) || negb (contains "}" func)
      then false
      else true
  | _ => false
  end.

(** A line of the CSV file, as the values handed to [writer.writerow]. *)
Record csv_row : Type := CsvRow {
  index : nat;
  processed_func : json;
  target : json;
  vul_func_with_fix : string;
  cve_id : json;
  cwe_id : string;
  commit_id : json;
  file_path : json;
  file_language : string;
  flaw_line_index : string;
  flaw_line : string
}.

(** What [extract_c_functions] leaves behind: the rows written after the
    header, the two counters of its summary line, and the exception that
    ended it, if one did. *)
Record run : Type := Run {
  written : list csv_row;
  total : nat;
  kept : nat;
  raised : option exn
}.

Section Extract.

Variable json_loads : string -> option json.

(** [json.dumps(v, ensure_ascii=False)] *)
Variable json_dumps : json -> string.

Definition row_of (row_index : nat) (sample : gmap string json) : csv_row :=
  {| index := row_index;
     processed_func := get_or_empty sample "func";
     target := dict_get sample "target";
     vul_func_with_fix := "-";
     cve_id := get_or_empty sample "cve";
     cwe_id := match dict_get sample "cwe" with
               | JNull => ""
               | cwe_value => json_dumps cwe_value
               end;
     commit_id := get_or_empty sample "commit_id";
     file_path := get_or_empty sample "file_name";
     file_language := "c";
     flaw_line_index := "[]";
     flaw_line := "" |}.

(** The loop [for line in f_in] of [extract_c_functions], from the counters
    [total], [kept] (which is also [row_index]) on. *)
Fixpoint extract_loop (lines : list string) (total kept : nat) : run :=
  match lines with
  | [] => Run [] total kept None
  | line :: rest =>
      let line := strip line in
      if bool_decide (line = "") then extract_loop rest total kept
      else
        let total := S total in
        match json_loads line with
        | None => extract_loop rest total kept
        | Some (JDict sample) =>
            if is_c_function sample then
              let r := extract_loop rest total (S kept) in
              {| written := row_of kept sample :: written r;
                 total := PrimeVul.total r;
                 kept := PrimeVul.kept r;
                 raised := raised r |}
            else extract_loop rest total kept
        | Some _ => Run [] total kept (Some AttributeError)
        end
  end.

(** [extract_c_functions(jsonl_path, csv_path)] on the lines of the input. *)
Definition extract_c_functions (lines : list string) : run :=
  extract_loop lines 0 0.

End Extract.

End PrimeVul.

(* ===================================================================== *)
(** * data/llm_datasets/03_augment_with_llm.py *)
(* ===================================================================== *)

Module Augment.
Import Py.

(** ** Tables *)

(** The values a cell of a table read from a CSV file holds; a missing value
    is the float NaN. *)
Inductive cell : Type :=
  | CStr (s : string)
  | CInt (z : Z)
  | CBool (b : bool)
  | CFloat (x : spec_float).

#[global] Instance spec_float_eq_dec : EqDecision spec_float.
Proof. solve_decision. Defined.

#[global] Instance cell_eq_dec : EqDecision cell.
Proof. solve_decision. Defined.

Definition NaN : cell := CFloat S754_nan.

Definition isna (v : cell) : bool :=
  match v with
  | CFloat S754_nan => true
  | _ => false
  end.

Definition Series : Type := list cell.

(** A [DataFrame]: the length of its index and its columns in order, every
    column as long as the index. *)
Record DataFrame : Type := Frame {
  nrows : nat;
  columns : list (string * Series)
}.

Definition names (df : DataFrame) : list string := (columns df).*1.

(** [c in df.columns] *)
Definition has_column (c : string) (df : DataFrame) : bool :=
  bool_decide (c ∈ names df).

Fixpoint lookup_column (c : string) (cols : list (string * Series))
  : option Series :=
  match cols with
  | [] => None
  | (c', s) :: t => if decide (c = c') then Some s else lookup_column c t
  end.

(** [df[c]] *)
Definition getitem (df : DataFrame) (c : string) : result Series :=
  match lookup_column c (columns df) with
  | Some s => Ok s
  | None => Raise KeyError
  end.

Fixpoint update_column (c : string) (s : Series) (cols : list (string * Series))
  : list (string * Series) :=
  match cols with
  | [] => [(c, s)]
  | (c', s') :: t =>
      if decide (c = c') then (c, s) :: t else (c', s') :: update_column c s t
  end.

(** [df[c] = s]: the column is replaced where it stands, or added last. *)
Definition setitem (df : DataFrame) (c : string) (s : Series) : DataFrame :=
  {| nrows := nrows df; columns := update_column c s (columns df) |}.

(** [df[c] = v] for a scalar [v] *)
Definition setitem_scalar (df : DataFrame) (c : string) (v : cell) : DataFrame :=
  setitem df c (replicate (nrows df) v).

(** [df[cs]] for a list of column names *)
Definition select (df : DataFrame) (cs : list string) : result DataFrame :=
  cols ← mapM (fun c => s ← getitem df c; Ok (c, s)) cs;
  Ok {| nrows := nrows df; columns := cols |}.

(** [df.drop(columns=[c])] *)
Definition drop_column (c : string) (df : DataFrame) : DataFrame :=
  {| nrows := nrows df;
     columns := List.filter (fun p => negb (bool_decide (p.1 = c))) (columns df) |}.

(** The items of [l] at the places where [mask] is true. *)
Fixpoint keep {A : Type} (mask : list bool) (l : list A) : list A :=
  match mask, l with
  | b :: mask', x :: l' => if b then x :: keep mask' l' else keep mask' l'
  | _, _ => []
  end.

(** [df[mask]] for a boolean series *)
Definition filter_rows (mask : list bool) (df : DataFrame) : DataFrame :=
  {| nrows := length (keep mask (seq 0 (nrows df)));
     columns := map (fun p => (p.1, keep mask p.2)) (columns df) |}.

(** The column [c] of [df] in a concatenation: missing values where [df]
    has no such column. *)
Definition column_or_nan (df : DataFrame) (c : string) : Series :=
  default (replicate (nrows df) NaN) (lookup_column c (columns df)).

(** [pd.concat([a, b], ignore_index=True)] *)
Definition concat (a b : DataFrame) : DataFrame :=
  let cs := (names a ++ List.filter (fun c => negb (has_column c a)) (names b))%list in
  {| nrows := nrows a + nrows b;
     columns := map (fun c => (c, (column_or_nan a c ++ column_or_nan b c)%list)) cs |}.

(** [add_index_column(df)]; [insert] refuses a column that is there already. *)
Definition add_index_column (df : DataFrame) : result DataFrame :=
  if has_column "index" df then Raise ValueError
  else Ok {| nrows := nrows df;
             columns := ("index", map (fun i => CInt (Z.of_nat i)) (seq 0 (nrows df)))
                          :: columns df |}.

(** ** Fingerprints *)

(** [stable_hash(text)] *)
Definition stable_hash (text : string) : string :=
  hexdigest (sha256 (utf8_encode text)).

(** [stable_hash] under [Series.map]: only a [str] has [encode]. *)
Definition stable_hash_cell (v : cell) : result cell :=
  match v with
  | CStr text => Ok (CStr (stable_hash text))
  | _ => Raise AttributeError
  end.

(** [Series.duplicated(keep="first")]: true at every value seen before. *)
Fixpoint duplicated (seen : list cell) (s : Series) : list bool :=
  match s with
  | [] => []
  | v :: t => bool_decide (v ∈ seen) :: duplicated (v :: seen) t
  end.

(** [df.drop_duplicates(subset=[c])] *)
Definition drop_duplicates (c : string) (df : DataFrame) : result DataFrame :=
  s ← getitem df c;
  Ok (filter_rows (map negb (duplicated [] s)) df).

(** [deduplicate_by_code(df)] *)
Definition deduplicate_by_code (df : DataFrame) : result DataFrame :=
  let tmp := df in
  s ← getitem tmp "processed_func";
  h ← mapM stable_hash_cell s;
  let tmp := setitem tmp "_h" h in
  tmp ← drop_duplicates "_h" tmp;
  Ok (drop_column "_h" tmp).

(** [remove_overlap_by_code(base_df, candidates_df)] *)
Definition remove_overlap_by_code (base_df candidates_df : DataFrame)
  : result DataFrame :=
  s ← getitem base_df "processed_func";
  base_h ← mapM stable_hash_cell s;
  let cand := candidates_df in
  s ← getitem cand "processed_func";
  h ← mapM stable_hash_cell s;
  let cand := setitem cand "_h" h in
  h ← getitem cand "_h";
  let cand := filter_rows (map (fun v => negb (bool_decide (v ∈ base_h))) h) cand in
  Ok (drop_column "_h" cand).

(** ** The schema normaliser *)

Definition required_cols : list string :=
  [ "processed_func"; "target"; "vul_func_with_fix";
    "cve_id"; "cwe_id"; "commit_id"; "file_path"; "file_language";
    "flaw_line_index"; "flaw_line" ].

(** The value a missing column is filled with. *)
Definition missing_value (c : string) : cell :=
  if decide (c = "flaw_line_index") then CStr "[]"
  else if decide (c = "flaw_line") then CStr ""
  else CStr "-".

(** One turn of the loop over the required columns: a column the table
    lacks is added, filled with its value. *)
Definition fill_missing (df : DataFrame) (c : string) : DataFrame :=
  if has_column c df then df else setitem_scalar df c (missing_value c).

(** The whole numbers of [int64], and a whole number read in 64 bits, two's
    complement. *)
Definition in_int64 (z : Z) : bool := (- 2 ^ 63 <=? z) && (z <? 2 ^ 63).
Definition wrap_int64 (z : Z) : Z := (z + 2 ^ 63) mod 2 ^ 64 - 2 ^ 63.

(** A number as [pd.to_numeric] reads one from text. *)
Inductive number : Type :=
  | NInt (z : Z)
  | NFloat (x : spec_float).

Section Pandas.

(** [str(x)] for a float. *)
Variable float_repr : spec_float -> string.

(** The number pandas reads from a string, [None] when it reads none. *)
Variable numeric_of_string : string -> option number.

(** Whether [astype(str)] keeps a missing value missing (pandas 3) or
    writes it out as text (pandas 1 and 2). *)
Variable astype_str_keeps_na : bool.

(** What the cast of a float to [int64] leaves when the float is finite but
    beyond [int64]: numpy leaves it to the C compiler. *)
Variable cast_overflow : spec_float -> Z.

(** [str(v)] *)
Definition str_of_cell (v : cell) : string :=
  match v with
  | CStr s => s
  | CInt z => str_of_int z
  | CBool b => if b then "True" else "False"
  | CFloat x => float_repr x
  end.

(** [.astype(str)], on one cell *)
Definition astype_str (v : cell) : cell :=
  if astype_str_keeps_na && isna v then v else CStr (str_of_cell v).

(** [.fillna(d)], on one cell *)
Definition fillna (d : cell) (v : cell) : cell := if isna v then d else v.

(** [clean_code(s)], on one cell; no cell is [None]. *)
Definition clean_code (v : cell) : cell := CStr (clean_text (str_of_cell v)).

(** [pd.to_numeric(..., errors="coerce")], on one cell *)
Definition to_numeric (v : cell) : cell :=
  match v with
  | CStr s =>
      match numeric_of_string s with
      | Some (NInt z) => CInt z
      | Some (NFloat x) => CFloat x
      | None => NaN
      end
  | _ => v
  end.

(** [.astype(int)], on one cell.  The column becomes [int64]: a whole
    number is read in 64 bits (a [uint64] value from [2^63] on wraps
    around), a finite float is truncated toward zero, and when what is left
    does not fit the cell holds what the C cast makes of it,
    [cast_overflow]; a float that is not finite is refused. *)
Definition astype_int (v : cell) : result cell :=
  match v with
  | CInt z => Ok (CInt (wrap_int64 z))
  | CBool b => Ok (CInt (Z.b2z b))
  | CFloat (S754_zero _) => Ok (CInt 0)
  | CFloat (S754_finite s m e) =>
      let t := if s then - floor_mag m e else floor_mag m e in
      Ok (CInt (if in_int64 t then t
                else wrap_int64 (cast_overflow (S754_finite s m e))))
  | CFloat _ => Raise ValueError
  | CStr _ => Raise ValueError
  end.

(** [df[c] = df[c].astype(str).fillna(d)] *)
Definition normalize_text (c : string) (d : cell) (df : DataFrame)
  : result DataFrame :=
  s ← getitem df c;
  Ok (setitem df c (map (fun v => fillna d (astype_str v)) s)).

(** [ensure_reposvul_schema(df)] *)
Definition ensure_reposvul_schema (df : DataFrame) : result DataFrame :=
  let df := foldl fill_missing df required_cols in
  s ← getitem df "processed_func";
  let df := setitem df "processed_func" (map (fun v => clean_code (astype_str v)) s) in
  s ← getitem df "target";
  t ← mapM astype_int (map (fun v => fillna (CInt 0) (to_numeric v)) s);
  let df := setitem df "target" t in
  df ← normalize_text "vul_func_with_fix" (CStr "-") df;
  df ← normalize_text "cve_id" (CStr "-") df;
  df ← normalize_text "cwe_id" (CStr "['-']") df;
  df ← normalize_text "commit_id" (CStr "-") df;
  df ← normalize_text "file_path" (CStr "-") df;
  df ← normalize_text "file_language" (CStr "C") df;
  df ← normalize_text "flaw_line_index" (CStr "[]") df;
  df ← normalize_text "flaw_line" (CStr "") df;
  select df required_cols.

(** ** The augmentation *)






End Pandas.

End Augment.

(* ===================================================================== *)
(** * The vocabulary of the specification *)
(* ===================================================================== *)

Module Spec.
Import Py.

(** A text as [clean_code] leaves it: no NUL, no carriage return, no white
    space at either end. *)
Definition cleaned (t : string) : Prop :=
  ~ In (ascii_of_nat 0) (list_ascii_of_string t) /\
  ~ In (ascii_of_nat 13) (list_ascii_of_string t) /\
  strip t = t.

(** Two texts are equal when case is ignored. *)
Definition equal_ignoring_case (a b : string) : Prop := lower a = lower b.

(** The first value of an ordered fallback chain that Python takes for
    true; the empty text when there is none. *)
Fixpoint first_truthy (vs : list json) : json :=
  match vs with
  | [] => JStr ""
  | v :: vs' => if truthy v then v else first_truthy vs'
  end.

(** The first text of an ordered fallback chain that is not empty. *)
Fixpoint first_nonempty (ts : list string) : string :=
  match ts with
  | [] => ""
  | t :: ts' => if bool_decide (t = "") then first_nonempty ts' else t
  end.

Section Extractor.

Variable repr_value : json -> string.

(** The first element of a slot: of a list its first item, if it has one;
    nothing of a slot that is absent or null; any other value is its own
    and only element. *)
Definition first_element (slot : json) : option json :=
  match slot with
  | JNull => None
  | JList [] => None
  | JList (x :: _) => Some x
  | x => Some x
  end.

(** The code a field holds: nothing when the field is absent or holds a
    value Python takes for false; else its text (the string itself, or what
    [str] writes of another value) without NUL characters, with the line
    ends CR LF and CR turned into LF, and without white space at its ends. *)
Definition code_text (v : json) : string :=
  if truthy v
  then strip (replace CR LF (replace CRLF LF (replace NUL ""
         (match v with JStr s => s | _ => Transform.str_of repr_value v end))))
  else "".

(** The code of the first element of a "before" or "after" slot: from a
    dictionary, the first of [keys] with a value; a plain string is the
    code itself. *)
Definition slot_code (keys : list string) (slot : json) : string :=
  match first_element slot with
  | Some (JDict d) => code_text (first_truthy (map (dict_get d) keys))
  | Some (JStr s) => code_text (JStr s)
  | _ => ""
  end.

Definition before_code (detail : gmap string json) : string :=
  first_nonempty
    [ slot_code ["function"; "code_before"; "code"]
        (dict_get detail "function_before");
      code_text
        (first_truthy [dict_get detail "code_before"; dict_get detail "code"]) ].

Definition after_code (detail : gmap string json) : string :=
  first_nonempty
    [ slot_code ["function"; "code"] (dict_get detail "function_after");
      code_text (first_truthy [dict_get detail "patch"]);
      before_code detail ].



End Extractor.


(** A run of the PrimeVul extractor that read one line more. *)
Definition one_more_line (r : PrimeVul.run) : PrimeVul.run :=
  {| PrimeVul.written := PrimeVul.written r;
     PrimeVul.total := S (PrimeVul.total r);
     PrimeVul.kept := PrimeVul.kept r;
     PrimeVul.raised := PrimeVul.raised r |}.




(** A ratio is a proportion: zero, or a float with the sign bit clear. *)
Definition ratio_nonneg (r : spec_float) : Prop :=
  match r with
  | S754_zero _ => True
  | S754_finite s _ _ => s = false
  | S754_infinity s => s = false
  | S754_nan => True
  end.


Section Normal.
Import Augment.

Variable float_repr : spec_float -> string.
Variable numeric_of_string : string -> option number.
Variable astype_str_keeps_na : bool.
Variable cast_overflow : spec_float -> Z.

(** The column [c] of [df] as the normaliser reads it: the column of the
    table, or the fill of a column the table lacks. *)
Definition column_or_missing (df : DataFrame) (c : string) : Series :=
  default (replicate (nrows df) (missing_value c))
          (lookup_column c (columns df)).

(** What replaces a missing value in the text column [c]. *)
Definition na_value (c : string) : cell :=
  if decide (c = "cwe_id") then CStr "['-']"
  else if decide (c = "file_language") then CStr "C"
  else if decide (c = "flaw_line_index") then CStr "[]"
  else if decide (c = "flaw_line") then CStr ""
  else CStr "-".

(** The normaliser on one cell of the column [c]. *)
Definition normalize_cell (c : string) (v : cell) : result cell :=
  if decide (c = "processed_func")
  then Ok (clean_code float_repr (astype_str float_repr astype_str_keeps_na v))
  else if decide (c = "target")
  then astype_int cast_overflow
         (fillna (CInt 0) (to_numeric numeric_of_string v))
  else Ok (fillna (na_value c) (astype_str float_repr astype_str_keeps_na v)).

(** A cell of the column [c] as the normaliser leaves it. *)
Definition normal_cell (c : string) (v : cell) : Prop :=
  if decide (c = "processed_func")
  then exists t, v = CStr t /\ clean_text t = t
  else if decide (c = "target")
  then exists z, v = CInt z /\ in_int64 z = true
  else exists t, v = CStr t.

(** A table as the normaliser leaves it: the required columns in their
    order, every cell of its column's kind. *)
Definition normal (df : DataFrame) : Prop :=
  names df = required_cols /\
  Forall (fun p => Forall (normal_cell p.1) p.2) (columns df).



End Normal.

(** The rows at which a fingerprint is seen for the first time. *)
Definition first_seen (h : list Augment.cell) : list bool :=
  map negb (Augment.duplicated [] h).

(** The fingerprints of the rows of a table, in order. *)
Definition fingerprints (df : Augment.DataFrame) : result Augment.Series :=
  s ← Augment.getitem df "processed_func";
  mapM Augment.stable_hash_cell s.

(** [w] is the fingerprint of the code in the cell [v]. *)
Definition fingerprint_of (v w : Augment.cell) : Prop :=
  exists t, v = Augment.CStr t /\ w = Augment.CStr (Augment.stable_hash t).
End Spec.

(* ===================================================================== *)
(** * Sample values *)
(* ===================================================================== *)

Module Sample.
Import Py.

(** The float [0.5]. *)
Definition one_half : spec_float := S754_finite false 4503599627370496 (-53).


(** A small generator to run the splitter on: the state is a number of 32
    bits, a draw below [n] is the state modulo [n]. *)
Definition rng : Type := N.
Definition seed_rng (seed : Z) : rng := Z.to_N (Z.abs seed).
Definition randbelow (n : nat) (g : rng) : nat * rng :=
  (N.to_nat (g mod N.of_nat n), (7 * g + 1) mod 4294967296)%N.

(** A row with a given code and label. *)
Definition row_of (code : string) (label : Z) : Transform.row :=
  {| Transform.processed_func := code;
     Transform.target := label;
     Transform.vul_func_with_fix := code;
     Transform.cve_id := Py.JStr "";
     Transform.cwe_id := Py.JStr "";
     Transform.commit_id := Py.JStr "";
     Transform.file_path := Py.JStr "";
     Transform.file_language := "C" |}.

Definition pool : list Transform.row :=
  [row_of "a" 1; row_of "b" 0; row_of "c" 0; row_of "d" 1; row_of "e" 0].

(** What the examples need of pandas: the text of the floats that are not
    numbers, and whole numbers read from text. *)
Definition float_repr (x : spec_float) : string :=
  match x with
  | S754_nan => "nan"
  | S754_infinity false => "inf"
  | S754_infinity true => "-inf"
  | S754_zero false => "0.0"
  | S754_zero true => "-0.0"
  | S754_finite _ _ _ => "1.0"
  end.

Definition cast_overflow (x : spec_float) : Z := - 2 ^ 63.

Definition numeric_of_string (s : string) : option Augment.number :=
  if bool_decide (s = "0") then Some (Augment.NInt 0)
  else if bool_decide (s = "1") then Some (Augment.NInt 1)
  else if bool_decide (s = "2") then Some (Augment.NInt 2)
  else None.

(** A table with code and labels only. *)
Definition no_language : Augment.DataFrame :=
  {| Augment.nrows := 1;
     Augment.columns :=
       [ ("processed_func", [Augment.CStr "int f(void) { return 0; }"]);
         ("target", [Augment.CInt 1]) ] |}.


(** A table in the schema, one row for each code and label. *)
Definition table_of (rows : list (string * Z)) : Augment.DataFrame :=
  let text (t : string) := map (fun _ => Augment.CStr t) rows in
  {| Augment.nrows := length rows;
     Augment.columns :=
       [ ("processed_func", map (fun r => Augment.CStr r.1) rows);
         ("target", map (fun r => Augment.CInt r.2) rows);
         ("vul_func_with_fix", text "-");
         ("cve_id", text "-");
         ("cwe_id", text "['-']");
         ("commit_id", text "-");
         ("file_path", text "-");
         ("file_language", text "C");
         ("flaw_line_index", text "[]");
         ("flaw_line", text "") ] |}.

(** Three rows, the third with the code of the first and another label. *)
Definition repeated : Augment.DataFrame :=
  table_of [("f", 1); ("g", 0); ("f", 0)].

Definition real_val : Augment.DataFrame := table_of [("g", 0)].
Definition synth_pool : Augment.DataFrame := table_of [("g", 1)].

(** What the examples need of [json] and [repr]: a reader that knows the
    empty object and nothing else, and writers of the empty text. *)
Definition json_loads (s : string) : option Py.json :=
  if bool_decide (s = "{}") then Some (Py.JDict ∅) else None.
Definition json_dumps (v : Py.json) : string := "".
Definition repr_value (v : Py.json) : string := "".



(** A table whose language is a missing value. *)
Definition nan_language : Augment.DataFrame :=
  {| Augment.nrows := 1;
     Augment.columns :=
       [ ("processed_func", [Augment.CStr "int f(void) { return 0; }"]);
         ("target", [Augment.CInt 1]);
         ("file_language", [Augment.NaN]) ] |}.

End Sample.

(* ===================================================================== *)
(** * Part II: the claims *)
(* ===================================================================== *)


(* ===================================================================== *)
(** * Facts about the run time *)
(* ===================================================================== *)

Section TextFacts.
Import Py.

Lemma lstrip_chars_fixed (l : list ascii) :
  (forall c t, l = c :: t -> isspace c = false) -> lstrip_chars l = l.
Proof.
  destruct l as [|c t]; [done|]. intros H. simpl.
  by rewrite (H c t eq_refl).
Qed.

Lemma lstrip_chars_head (l : list ascii) c t :
  lstrip_chars l = c :: t -> isspace c = false.
Proof.
  induction l as [|a l IH]; [done|]. simpl.
  destruct (isspace a) eqn:Ha; [done|]. by intros [= -> ->].
Qed.

Lemma lstrip_chars_suffix (l : list ascii) :
  exists pre, l = (pre ++ lstrip_chars l)%list.
Proof.
  induction l as [|a l [pre IH]]; [by exists []|]. simpl.
  destruct (isspace a).
  - exists (a :: pre). simpl. by rewrite <- IH.
  - by exists [].
Qed.

Lemma lstrip_chars_idemp (l : list ascii) :
  lstrip_chars (lstrip_chars l) = lstrip_chars l.
Proof.
  apply lstrip_chars_fixed. intros c t H. by eapply lstrip_chars_head.
Qed.

(** A stripped text starts and ends with a character that is no space. *)
Lemma strip_chars_trimmed (l : list ascii) :
  lstrip_chars (strip_chars l) = strip_chars l /\
  lstrip_chars (rev (strip_chars l)) = rev (strip_chars l).
Proof.
  unfold strip_chars. rewrite rev_involutive, lstrip_chars_idemp.
  split; [|done].
  apply lstrip_chars_fixed. intros c t H.
  destruct (lstrip_chars_suffix (rev (lstrip_chars l))) as [pre Hpre].
  apply (f_equal (@rev ascii)) in Hpre.
  rewrite rev_involutive, rev_app_distr, H in Hpre. simpl in Hpre.
  by eapply lstrip_chars_head.
Qed.

Lemma strip_chars_fixed (l : list ascii) :
  lstrip_chars l = l -> lstrip_chars (rev l) = rev l -> strip_chars l = l.
Proof.
  intros H1 H2. unfold strip_chars. by rewrite H1, H2, rev_involutive.
Qed.

Lemma strip_chars_idemp (l : list ascii) :
  strip_chars (strip_chars l) = strip_chars l.
Proof. destruct (strip_chars_trimmed l). by apply strip_chars_fixed. Qed.

Lemma lstrip_chars_incl (l : list ascii) c : In c (lstrip_chars l) -> In c l.
Proof.
  destruct (lstrip_chars_suffix l) as [pre H]. intros Hc.
  rewrite H. apply in_or_app. by right.
Qed.

Lemma strip_chars_incl (l : list ascii) c : In c (strip_chars l) -> In c l.
Proof.
  unfold strip_chars. intros H.
  apply in_rev, lstrip_chars_incl, in_rev, lstrip_chars_incl in H. done.
Qed.

Lemma strip_idemp (s : string) : strip (strip s) = strip s.
Proof.
  unfold strip. by rewrite list_ascii_of_string_of_list_ascii, strip_chars_idemp.
Qed.

(** Replacing leaves out a character that neither the text nor the
    replacement holds. *)
Lemma replace_chars_not_in old new k l c :
  ~ In c l -> ~ In c new -> ~ In c (replace_chars old new k l).
Proof.
  intros Hl Hn. revert k. induction l as [|a l IH]; intros k; [done|].
  simpl. assert (~ In c l) as Hl' by (intros ?; apply Hl; by right).
  destruct k; [|by apply IH].
  destruct (starts_with old (a :: l)).
  - intros [?|?]%in_app_or; [done|]. by eapply IH.
  - intros [->|?]; [apply Hl; by left|]. by eapply IH.
Qed.

(** Replacing a single character leaves none of it behind. *)
Lemma replace_chars_single_gone c new l :
  ~ In c new -> ~ In c (replace_chars [c] new 0 l).
Proof.
  intros Hn. induction l as [|a l IH]; [by intros []|]. simpl.
  destruct (Ascii.eqb c a) eqn:E.
  - intros [?|?]%in_app_or; done.
  - intros [->|?]; [|done]. by rewrite Ascii.eqb_refl in E.
Qed.

(** Nothing is replaced in a text without the first character sought. *)
Lemma replace_chars_absent a old new l :
  ~ In a l -> replace_chars (a :: old) new 0 l = l.
Proof.
  induction l as [|b l IH]; [done|]. intros H. simpl.
  destruct (Ascii.eqb a b) eqn:E.
  - apply Ascii.eqb_eq in E. subst. exfalso. apply H. by left.
  - f_equal. apply IH. intros ?. apply H. by right.
Qed.

Lemma clean_text_chars_eq (s : string) :
  list_ascii_of_string (clean_text s) =
  strip_chars
    (replace_chars [ascii_of_nat 13] [ascii_of_nat 10] 0
       (replace_chars [ascii_of_nat 13; ascii_of_nat 10] [ascii_of_nat 10] 0
          (replace_chars [ascii_of_nat 0] [] 0 (list_ascii_of_string s)))).
Proof.
  unfold clean_text, strip, replace.
  by rewrite !list_ascii_of_string_of_list_ascii.
Qed.

(** What [clean_text] returns holds no NUL and no CR, and is stripped. *)
Lemma clean_text_chars (s : string) :
  let l := list_ascii_of_string (clean_text s) in
  ~ In (ascii_of_nat 0) l /\ ~ In (ascii_of_nat 13) l /\ strip_chars l = l.
Proof.
  cbv zeta. rewrite clean_text_chars_eq.
  split; [|split].
  - intros H%strip_chars_incl. revert H.
    apply replace_chars_not_in; [|by intros [[=]|[]]].
    apply replace_chars_not_in; [|by intros [[=]|[]]].
    apply (replace_chars_single_gone _ []). by intros [].
  - intros H%strip_chars_incl. revert H.
    apply (replace_chars_single_gone _ [_]). by intros [[=]|[]].
  - apply strip_chars_idemp.
Qed.

(** Cleaning a cleaned text changes nothing. *)
Lemma clean_text_idemp (s : string) : clean_text (clean_text s) = clean_text s.
Proof.
  destruct (clean_text_chars s) as (H0 & H13 & Hs).
  revert H0 H13 Hs. generalize (clean_text s). intros t H0 H13 Hs.
  rewrite <- (string_of_list_ascii_of_string (clean_text t)).
  rewrite <- (string_of_list_ascii_of_string t) at 2.
  f_equal. rewrite clean_text_chars_eq.
  rewrite (replace_chars_absent _ [] []) by done.
  rewrite (replace_chars_absent _ [_] [_]) by done.
  rewrite (replace_chars_absent _ [] [_]) by done.
  exact Hs.
Qed.

Lemma clean_text_empty : clean_text "" = "".
Proof. reflexivity. Qed.

End TextFacts.


(* ===================================================================== *)
(** * The code and label extractor *)
(* ===================================================================== *)

Section LabelFacts.
Import Py Transform.

(** A resolved label is 0 or 1. *)
Lemma to_int_label_range (x : json) (v : Z) :
  to_int_label x = Ok (Some v) -> v = 0 \/ v = 1.
Proof.
  destruct x as [|b|z|f|s|l|d]; simpl; try done.
  - destruct b; intros [= <-]; auto.
  - case_bool_decide; intros [= <-]; auto.
  - destruct (int_of_float f) as [z|e]; simpl; [|done].
    case_bool_decide; intros [= <-]; auto.
  - repeat case_bool_decide; intros [= <-]; auto.
Qed.


End LabelFacts.

Section FloatFacts.
Import Py.

(** [floor_mag] is the floor of the magnitude. *)
Lemma floor_mag_bounds (m : positive) (e : Z) :
  let mag := if 0 <=? e then inject_Z (Z.pos m * 2 ^ e)
             else Qmake (Z.pos m) (Z.to_pos (2 ^ (- e))) in
  (inject_Z (floor_mag m e) <= mag)%Q /\ (mag < inject_Z (floor_mag m e + 1))%Q.
Proof.
  unfold floor_mag. destruct (0 <=? e) eqn:He; simpl.
  - unfold Qle, Qlt; simpl. lia.
  - apply Z.leb_gt in He.
    assert (0 < 2 ^ (- e)) as Hd by (apply Z.pow_pos_nonneg; lia).
    unfold Qle, Qlt; simpl. rewrite Z2Pos.id by done.
    pose proof (Z.div_mod (Z.pos m) (2 ^ (- e)) ltac:(lia)) as Hdm.
    pose proof (Z.mod_pos_bound (Z.pos m) (2 ^ (- e)) Hd) as Hb.
    nia.
Qed.

(** [int(x)] truncates toward zero: it is the integer part of the value. *)
Lemma int_of_float_value (x : spec_float) (q : Q) :
  float_value x = Some q ->
  exists v, int_of_float x = Ok v /\
    ((0 <= q)%Q -> (inject_Z v <= q)%Q /\ (q < inject_Z (v + 1))%Q) /\
    ((q <= 0)%Q -> (inject_Z (v - 1) < q)%Q /\ (q <= inject_Z v)%Q).
Proof.
  destruct x as [s|s| |s m e]; simpl; try done.
  - intros [= <-]. exists 0. split; [done|]. unfold Qle, Qlt; simpl. lia.
  - intros [= <-]. eexists; split; [done|].
    pose proof (floor_mag_bounds m e) as [H1 H2]. simpl in H1, H2.
    set (mag := if 0 <=? e then _ else _) in *.
    assert (0 < mag)%Q as Hpos.
    { unfold mag. destruct (0 <=? e) eqn:He; unfold Qlt; simpl; [|lia].
      apply Z.leb_le in He.
      assert (0 < 2 ^ e) by (apply Z.pow_pos_nonneg; lia). lia. }
    assert (0 <= floor_mag m e) as Hfl.
    { unfold floor_mag. destruct (0 <=? e) eqn:He.
      - apply Z.leb_le in He. assert (0 < 2 ^ e) by (apply Z.pow_pos_nonneg; lia). lia.
      - apply Z.leb_gt in He. apply Z.div_pos; [lia|]. apply Z.pow_pos_nonneg; lia. }
    revert H1 H2 Hpos. generalize (floor_mag m e) Hfl. intros v Hv.
    destruct mag as [a b]. unfold Qle, Qlt, Qopp; simpl.
    intros H1 H2 Hpos. destruct s; simpl; split; intros; nia.
Qed.

End FloatFacts.

Section LabelCoercion.
Import Py Transform Spec.

(** A float is kept as 0 exactly when it lies strictly between -1 and 1, and
    as 1 exactly when it lies in [1, 2). *)
Lemma to_int_label_float (f : spec_float) (q : Q) :
  float_value f = Some q ->
  (to_int_label (JFloat f) = Ok (Some 0) <-> (-1 < q)%Q /\ (q < 1)%Q) /\
  (to_int_label (JFloat f) = Ok (Some 1) <-> (1 <= q)%Q /\ (q < 2)%Q) /\
  (exists o, to_int_label (JFloat f) = Ok o).
Proof.
  intros Hq. destruct (int_of_float_value f q Hq) as (v & Hv & Hnn & Hnp).
  simpl. rewrite Hv. simpl. clear Hv Hq.
  destruct q as [a b]. revert Hnn Hnp.
  unfold Qle, Qlt, inject_Z; simpl. intros Hnn Hnp.
  assert (0 <= a \/ a <= 0) as Hs by lia.
  assert (Z.pos b > 0) as Hb by lia.
  assert (v <= -1 \/ v = 0 \/ v = 1 \/ 2 <= v) as Hv by lia.
  assert (v <= -1 -> v * Z.pos b <= - Z.pos b /\ (v - 1) * Z.pos b <= - Z.pos b)
    as Hlo by (intros; nia).
  assert (2 <= v -> 2 * Z.pos b <= v * Z.pos b) as Hhi by (intros; nia).
  split; [|split]; [| |eauto];
    (case_bool_decide as Hd; (split; [intros [= E]|intros E]);
     (destruct Hs as [Hs|Hs];
      [specialize (Hnn ltac:(lia))|specialize (Hnp ltac:(lia))]);
     destruct Hv as [Hv|[Hv|[Hv|Hv]]];
     try (specialize (Hlo Hv)); try (specialize (Hhi Hv));
     try subst v; first [ lia | done | exfalso; lia ]).
Qed.

End LabelCoercion.

Section LabelCoercionTheorems.
Import Py Transform Spec Sample.

(** C3 (as amended).  [to_int_label] maps a boolean to 0/1; keeps an
    integer exactly when it is 0 or 1; truncates a float toward zero first,
    so that every float strictly between -1 and 1 is kept as 0 and every
    float in [1, 2) as 1, and raises on a float that is not finite; accepts
    a string exactly when, once stripped, it equals "0", "1", "true" or
    "false" up to case; and leaves [None], lists and dictionaries
    unresolved. *)
Theorem to_int_label_spec :
  (forall b : bool, to_int_label (JBool b) = Ok (Some (if b then 1 else 0))) /\
  (forall z : Z,
      (z = 0 \/ z = 1 -> to_int_label (JInt z) = Ok (Some z)) /\
      (z <> 0 -> z <> 1 -> to_int_label (JInt z) = Ok None)) /\
  (forall (f : spec_float) (q : Q), float_value f = Some q ->
      (to_int_label (JFloat f) = Ok (Some 0) <-> (-1 < q)%Q /\ (q < 1)%Q) /\
      (to_int_label (JFloat f) = Ok (Some 1) <-> (1 <= q)%Q /\ (q < 2)%Q) /\
      (exists o, to_int_label (JFloat f) = Ok o)) /\
  (forall f : spec_float, float_value f = None ->
      exists e, to_int_label (JFloat f) = Raise e) /\
  (forall s : string,
      (to_int_label (JStr s) = Ok (Some 0) <->
         equal_ignoring_case (strip s) "0" \/ equal_ignoring_case (strip s) "false") /\
      (to_int_label (JStr s) = Ok (Some 1) <->
         equal_ignoring_case (strip s) "1" \/ equal_ignoring_case (strip s) "true") /\
      (exists o, to_int_label (JStr s) = Ok o)) /\
  to_int_label JNull = Ok None /\
  (forall l, to_int_label (JList l) = Ok None) /\
  (forall d, to_int_label (JDict d) = Ok None) /\
  (forall x v, to_int_label x = Ok (Some v) -> v = 0 \/ v = 1).
Proof.
  assert (lower "0" = "0" /\ lower "1" = "1" /\ lower "false" = "false"
          /\ lower "true" = "true") as (L0 & L1 & Lf & Lt)
    by (repeat split; reflexivity).
  split; [by intros []|].
  split.
  { intros z. split.
    - intros Hz. simpl. by rewrite bool_decide_eq_true_2.
    - intros. simpl. rewrite bool_decide_eq_false_2; [done|lia]. }
  split; [exact to_int_label_float|].
  split.
  { intros f Hf. destruct f; simpl in *; try done; eauto. }
  split.
  { intros s. unfold equal_ignoring_case. rewrite L0, L1, Lf, Lt. simpl.
    generalize (lower (strip s)). intros t.
    destruct (decide (t = "0")) as [->|H0]; [by intuition eauto|].
    destruct (decide (t = "1")) as [->|H1]; [by intuition eauto|].
    destruct (decide (t = "false")) as [->|Hf]; [by intuition eauto|].
    destruct (decide (t = "true")) as [->|Ht]; [by intuition eauto|].
    rewrite !bool_decide_eq_false_2 by tauto.
    split; [|split]; [split; [done|tauto]|split; [done|tauto]|eauto]. }
  split; [done|]. split; [done|]. split; [done|].
  exact to_int_label_range.
Qed.

(** C3, counterexample: the float 0.5 equals neither 0 nor 1, and is kept,
    with the label 0. *)
Lemma to_int_label_keeps_one_half :
  match float_value one_half with
  | Some q => (q == 1 # 2)%Q
  | None => False
  end /\
  to_int_label (JFloat one_half) = Ok (Some 0).
Proof. split; reflexivity. Qed.

End LabelCoercionTheorems.

Section ExtractorFacts.
Import Py Transform Spec.

Variable repr_value : json -> string.

Lemma por_chain3 (a b c : json) :
  por (por (por a b) c) (JStr "") = first_truthy [a; b; c].
Proof.
  unfold por. simpl.
  destruct (truthy a) eqn:Ha; rewrite ?Ha; [done|].
  destruct (truthy b) eqn:Hb; rewrite ?Hb; [done|].
  by destruct (truthy c) eqn:Hc; rewrite ?Hc.
Qed.

Lemma por_chain2 (a b : json) :
  por (por a b) (JStr "") = first_truthy [a; b].
Proof.
  unfold por. simpl.
  destruct (truthy a) eqn:Ha; rewrite ?Ha; [done|].
  by destruct (truthy b) eqn:Hb; rewrite ?Hb.
Qed.

Lemma por_chain1 (a : json) : por a (JStr "") = first_truthy [a].
Proof. unfold por. simpl. by destruct (truthy a). Qed.

Lemma clean_code_empty : clean_code repr_value (JStr "") = "".
Proof. reflexivity. Qed.

(** The code [get_fb_code_and_label] returns is the slot's code. *)
Lemma get_fb_code (x : json) (c : string) (l : option Z) :
  get_fb_code_and_label repr_value x = Ok (c, l) ->
  c = match x with
      | JDict d => clean_code repr_value
                     (first_truthy (map (dict_get d) ["function"; "code_before"; "code"]))
      | JStr s => clean_code repr_value (JStr s)
      | _ => ""
      end /\
  match x with
  | JDict d => to_int_label (dict_get d "target") = Ok l
  | _ => l = None
  end.
Proof.
  destruct x; simpl; try (intros [= <- <-]; done).
  rewrite por_chain3.
  destruct (to_int_label (dict_get d "target")) as [o|e]; simpl; [|done].
  by intros [= <- <-].
Qed.

Lemma get_fa_code_eq (x : json) :
  get_fa_code repr_value x =
  match x with
  | JDict d => clean_code repr_value
                 (first_truthy (map (dict_get d) ["function"; "code"]))
  | JStr s => clean_code repr_value (JStr s)
  | _ => ""
  end.
Proof. destruct x; simpl; try done. by rewrite por_chain2. Qed.

(** The vocabulary of the specification, in the extractor's terms. *)
Lemma code_text_clean_code (v : json) :
  code_text repr_value v = clean_code repr_value v.
Proof. unfold code_text, clean_code, clean_text. by destruct v. Qed.

Lemma first_element_head (slot : json) :
  first_element slot = head (as_list slot).
Proof. by destruct slot as [| | | | |[|x l]|]. Qed.

Lemma slot_code_as_list (keys : list string) (slot : json) :
  slot_code repr_value keys slot =
  match as_list slot with
  | JDict d :: _ => clean_code repr_value (first_truthy (map (dict_get d) keys))
  | JStr s :: _ => clean_code repr_value (JStr s)
  | _ => ""
  end.
Proof.
  unfold slot_code. rewrite first_element_head.
  destruct (as_list slot) as [|[] ?]; simpl; by rewrite ?code_text_clean_code.
Qed.


End ExtractorFacts.

Section ExtractorTheorem.
Import Py Transform Spec.

Variable repr_value : json -> string.

Lemma first_nonempty_2 (a b : string) :
  first_nonempty [a; b] = if bool_decide (a = "") then b else a.
Proof. simpl. by repeat case_bool_decide. Qed.

Lemma first_nonempty_3 (a b c : string) :
  first_nonempty [a; b; c] =
  let a1 := if bool_decide (a = "") then b else a in
  if bool_decide (a1 = "") then c else a1.
Proof. simpl. repeat case_bool_decide; congruence. Qed.

Lemma first_nonempty_last (a b c : string) :
  c <> "" -> first_nonempty [a; b; c] <> "".
Proof. simpl. by repeat case_bool_decide. Qed.

Lemma slot_code_after (fa : json) :
  match as_list fa with x :: _ => get_fa_code repr_value x | [] => "" end =
  slot_code repr_value ["function"; "code"] fa.
Proof.
  rewrite slot_code_as_list. destruct (as_list fa) as [|x ?]; [done|].
  rewrite get_fa_code_eq. by destruct x.
Qed.

(** [extract_code_and_label], with its fallbacks written as chains. *)
Lemma extract_code_and_label_chains (detail : gmap string json) :
  extract_code_and_label repr_value detail =
  '(c, l) ← match as_list (dict_get detail "function_before") with
            | x :: _ => get_fb_code_and_label repr_value x
            | [] => Ok ("", None)
            end;
  let b := first_nonempty
             [c; clean_code repr_value
                   (first_truthy [dict_get detail "code_before";
                                  dict_get detail "code"])] in
  l' ← match l with
       | None => to_int_label (dict_get detail "target")
       | Some _ => Ok l
       end;
  Ok (b, l',
      first_nonempty
        [ slot_code repr_value ["function"; "code"]
            (dict_get detail "function_after");
          clean_code repr_value (first_truthy [dict_get detail "patch"]);
          b ]).
Proof.
  unfold extract_code_and_label.
  rewrite por_chain2, por_chain1, slot_code_after.
  destruct (match as_list (dict_get detail "function_before") with
            | [] => _ | _ => _ end) as [[c l]|e]; [|done].
  cbn [mbind result_bind]. rewrite first_nonempty_2, first_nonempty_3.
  done.
Qed.



End ExtractorTheorem.



Section RowBuilderFacts.
Import Py Transform Spec.

Variable repr_value : json -> string.
Variable json_loads : string -> option json.

(** A label the extractor resolves is 0 or 1. *)
Lemma extract_label_range (detail : gmap string json) b v a :
  extract_code_and_label repr_value detail = Ok (b, Some v, a) ->
  v = 0 \/ v = 1.
Proof.
  rewrite extract_code_and_label_chains.
  destruct (match as_list _ with [] => _ | _ => _ end) as [[c l]|e] eqn:Hfb;
    cbn [mbind result_bind]; [|done].
  destruct l as [w|]; cbn [mbind result_bind].
  - intros [= _ <- _].
    destruct (as_list _) as [|x ?]; [done|].
    apply get_fb_code in Hfb as [_ Hl]. destruct x; try done.
    by eapply to_int_label_range.
  - destruct (to_int_label (dict_get detail "target")) as [o|e] eqn:Ht;
      cbn [mbind result_bind]; [|done].
    intros [= _ -> _]. by eapply to_int_label_range.
Qed.

(** What one detail record leads to, by the extractor's answer. *)
Lemma iter_detail_cases (obj : gmap string json) (d : json) (st : Counter) :
  match iter_detail repr_value obj d st with
  | Ok (Some r, st') =>
      (target r = 0 \/ target r = 1) /\ processed_func r <> "" /\
      st' = incr "kept" st /\
      exists dd, d = JDict dd /\
        extract_code_and_label repr_value dd =
          Ok (processed_func r, Some (target r), vul_func_with_fix r)
  | Ok (None, st') =>
      (st' = incr "skip_detail_not_dict" st /\ forall dd, d <> JDict dd) \/
      (exists dd l a, d = JDict dd /\
         extract_code_and_label repr_value dd = Ok ("", l, a) /\
         st' = incr "skip_no_code" st) \/
      (exists dd b a, d = JDict dd /\ b <> "" /\
         extract_code_and_label repr_value dd = Ok (b, None, a) /\
         st' = incr "skip_no_label" st)
  | Raise e => exists dd, d = JDict dd
  end.
Proof.
  destruct d as [| | | | | |dd]; simpl; try (left; split; done).
  destruct (strip_value _) as [fl|e]; cbn [mbind result_bind]; [|eauto].
  destruct (extract_code_and_label repr_value dd) as [[[b l] a]|e] eqn:Hx;
    cbn [mbind result_bind]; [|eauto].
  case_bool_decide as Hb.
  - subst b. right. left. eauto 10.
  - destruct l as [v|].
    + simpl. split; [by eapply extract_label_range|]. eauto.
    + right. right. eauto 10.
Qed.

End RowBuilderFacts.

Section RowBuilderRuns.
Import Py Transform Spec.

Variable repr_value : json -> string.
Variable json_loads : string -> option json.



Lemma iter_objects_dict obj rest e st :
  let details := dict_get obj "details" in
  (details = JNull ->
   iter_objects repr_value (JDict obj :: rest) e st =
   iter_objects repr_value rest e (incr "skip_no_details" st)) /\
  (details <> JNull ->
   iter_objects repr_value (JDict obj :: rest) e st =
   let r := iter_details repr_value obj (as_list details) st in
   match raised r with
   | Some _ => r
   | None => yield_before (yielded r) (iter_objects repr_value rest e (stats r))
   end).
Proof.
  cbn [iter_objects]. cbv zeta.
  generalize (dict_get obj "details"). intros d.
  split; intros H; by destruct d.
Qed.

Lemma iter_objects_nondict o rest e st :
  (forall obj, o <> JDict obj) ->
  iter_objects repr_value (o :: rest) e st = Run [] st (Some AttributeError).
Proof. intros H. destruct o; try done. by destruct (H d). Qed.

Lemma json_null_dec (d : json) : d = JNull \/ d <> JNull.
Proof. destruct d; auto. Qed.

Lemma json_dict_dec (o : json) : (exists obj, o = JDict obj) \/ forall obj, o <> JDict obj.
Proof. destruct o; eauto. Qed.



(** The reader stops at the first line it cannot decode. *)
Lemma read_jsonl_malformed (l1 l2 : list string) (bad : string) objs :
  read_jsonl json_loads l1 = (objs, None) ->
  strip bad <> "" -> json_loads (strip bad) = None ->
  read_jsonl json_loads (l1 ++ bad :: l2) = (objs, Some JSONDecodeError).
Proof.
  intros H1 Hne Hbad. revert objs H1.
  induction l1 as [|l l1 IH]; intros objs H1; simpl in *.
  - injection H1 as <-. rewrite bool_decide_eq_false_2 by done. by rewrite Hbad.
  - case_bool_decide; [by apply IH|].
    destruct (json_loads (strip l)); [|done].
    destruct (read_jsonl json_loads l1) as [objs1 e1] eqn:Hr.
    injection H1 as <- ->. by rewrite (IH objs1 eq_refl).
Qed.

(** A loop that ends without an exception ends with the reader's. *)
Lemma iter_objects_reader_raises objs e st :
  raised (iter_objects repr_value objs None st) = None ->
  iter_objects repr_value objs (Some e) st =
  {| yielded := yielded (iter_objects repr_value objs None st);
     stats := stats (iter_objects repr_value objs None st);
     raised := Some e |}.
Proof.
  revert st. induction objs as [|o objs IH]; intros st; [done|].
  destruct (json_dict_dec o) as [[obj ->]|Ho];
    [|by rewrite !iter_objects_nondict].
  destruct (iter_objects_dict obj objs None st) as [H1 H2].
  destruct (iter_objects_dict obj objs (Some e) st) as [H3 H4].
  destruct (json_null_dec (dict_get obj "details")) as [Hd|Hd].
  - rewrite (H1 Hd), (H3 Hd). apply IH.
  - rewrite (H2 Hd), (H4 Hd). cbv zeta.
    destruct (raised (iter_details _ _ _ _)) eqn:Hr; [by rewrite Hr|].
    cbn [yield_before yielded stats raised]. intros H. by rewrite (IH _ H).
Qed.

End RowBuilderRuns.

Section MalformedLines.
Import Py Spec.

Variable repr_value : json -> string.
Variable json_loads : string -> option json.
Variable json_dumps : json -> string.

Lemma extract_loop_total_shift lines t k :
  PrimeVul.extract_loop json_loads json_dumps lines (S t) k =
  one_more_line (PrimeVul.extract_loop json_loads json_dumps lines t k).
Proof.
  revert t k. induction lines as [|l lines IH]; intros t k;
    cbn [PrimeVul.extract_loop]; [done|].
  case_bool_decide; [apply IH|].
  destruct (json_loads (strip l)) as [[| | | | | |sample]|]; try done.
  destruct (PrimeVul.is_c_function sample); [|apply IH].
  rewrite IH. done.
Qed.

(** The PrimeVul extractor passes over a line it cannot decode: the line
    counts as read, and nothing else changes. *)
Lemma extract_loop_skips_malformed l1 bad l2 t k :
  strip bad <> "" -> json_loads (strip bad) = None ->
  PrimeVul.raised (PrimeVul.extract_loop json_loads json_dumps l1 t k) = None ->
  PrimeVul.extract_loop json_loads json_dumps (l1 ++ bad :: l2) t k =
  one_more_line (PrimeVul.extract_loop json_loads json_dumps (l1 ++ l2) t k).
Proof.
  intros Hne Hbad. revert t k.
  induction l1 as [|l l1 IH]; intros t k.
  - intros _. cbn [app PrimeVul.extract_loop].
    rewrite bool_decide_eq_false_2 by done. rewrite Hbad.
    apply extract_loop_total_shift.
  - cbn [app PrimeVul.extract_loop].
    case_bool_decide; [apply IH|].
    destruct (json_loads (strip l)) as [[| | | | | |sample]|]; try done;
      [|apply IH].
    destruct (PrimeVul.is_c_function sample); [|apply IH].
    cbn [PrimeVul.raised]. intros Hr. by rewrite (IH _ _ Hr).
Qed.

Lemma iter_objects_raised_none objs e st :
  Transform.raised (Transform.iter_objects repr_value objs e st) = None -> e = None.
Proof.
  revert st. induction objs as [|o objs IH]; intros st; [done|].
  destruct (json_dict_dec o) as [[obj ->]|Ho];
    [|by rewrite iter_objects_nondict].
  destruct (iter_objects_dict repr_value obj objs e st) as [H1 H2].
  destruct (json_null_dec (dict_get obj "details")) as [Hd|Hd].
  - rewrite (H1 Hd). apply IH.
  - rewrite (H2 Hd). cbv zeta.
    destruct (Transform.raised (Transform.iter_details _ _ _ _)) eqn:Hr;
      [by rewrite Hr|].
    cbn [Transform.yield_before Transform.raised]. apply IH.
Qed.

(** The ReposVul row builder ends at the first line it cannot decode, with
    the reader's exception. *)
Lemma iter_rows_malformed l1 bad l2 st :
  strip bad <> "" -> json_loads (strip bad) = None ->
  Transform.raised (Transform.iter_rows repr_value json_loads l1 st) = None ->
  Transform.iter_rows repr_value json_loads (l1 ++ bad :: l2) st =
  {| Transform.yielded :=
       Transform.yielded (Transform.iter_rows repr_value json_loads l1 st);
     Transform.stats :=
       Transform.stats (Transform.iter_rows repr_value json_loads l1 st);
     Transform.raised := Some JSONDecodeError |}.
Proof.
  intros Hne Hbad. unfold Transform.iter_rows.
  destruct (Transform.read_jsonl json_loads l1) as [objs e] eqn:Hr.
  intros Hnone. pose proof (iter_objects_raised_none _ _ _ Hnone) as ->.
  rewrite (read_jsonl_malformed json_loads l1 l2 bad objs Hr Hne Hbad).
  by apply iter_objects_reader_raises.
Qed.

(** A line that is not JSON is passed over by the
    PrimeVul extractor alone: when the run reaches it, it counts as a line
    read, in [total], and changes nothing else (no row, no counter of its
    own, no abort).
    The ReposVul row builder has no handler: the line ends the run with
    [JSONDecodeError], after the rows of the lines before it. *)
Theorem malformed_line_handling (l1 l2 : list string) (bad : string) :
  strip bad <> "" -> json_loads (strip bad) = None ->
  (PrimeVul.raised (PrimeVul.extract_c_functions json_loads json_dumps l1) = None ->
   PrimeVul.extract_c_functions json_loads json_dumps (l1 ++ bad :: l2) =
     one_more_line (PrimeVul.extract_c_functions json_loads json_dumps (l1 ++ l2))) /\
  forall st,
    Transform.raised (Transform.iter_rows repr_value json_loads l1 st) = None ->
    Transform.iter_rows repr_value json_loads (l1 ++ bad :: l2) st =
    {| Transform.yielded :=
         Transform.yielded (Transform.iter_rows repr_value json_loads l1 st);
       Transform.stats :=
         Transform.stats (Transform.iter_rows repr_value json_loads l1 st);
       Transform.raised := Some JSONDecodeError |}.
Proof.
  intros Hne Hbad. split.
  - by apply extract_loop_skips_malformed.
  - intros st. by apply iter_rows_malformed.
Qed.

End MalformedLines.

Lemma malformed_line_handling_witness :
  PrimeVul.extract_c_functions Sample.json_loads Sample.json_dumps
    (["{}"] ++ "{" :: ["{}"]) =
  Spec.one_more_line
    (PrimeVul.extract_c_functions Sample.json_loads Sample.json_dumps
       (["{}"] ++ ["{}"])) /\
  Transform.raised
    (Transform.iter_rows Sample.repr_value Sample.json_loads
       (["{}"] ++ "{" :: ["{}"]) ∅) = Some Py.JSONDecodeError.
Proof.
  destruct (malformed_line_handling Sample.repr_value Sample.json_loads
              Sample.json_dumps ["{}"] ["{}"] "{") as [Hp Ht].
  - by vm_compute.
  - by vm_compute.
  - split.
    + apply Hp. by vm_compute.
    + rewrite Ht; [done|by vm_compute].
Defined.

(** C10 at a malformed line: the ReposVul row builder ends the run with
    [JSONDecodeError]; the object on the line after it is never read and no
    counter is moved, where without the malformed line that object is
    counted.  The PrimeVul extractor, on the same lines, goes on: it counts
    both lines as read and raises nothing. *)
Lemma iter_rows_aborts_on_malformed_line :
  Transform.iter_rows Sample.repr_value Sample.json_loads ["{"; "{}"] ∅ =
  {| Transform.yielded := [];
     Transform.stats := ∅;
     Transform.raised := Some Py.JSONDecodeError |} /\
  Transform.stats
    (Transform.iter_rows Sample.repr_value Sample.json_loads ["{}"] ∅)
    = <["skip_no_details" := 1%nat]> ∅ /\
  PrimeVul.extract_c_functions Sample.json_loads Sample.json_dumps ["{"; "{}"] =
  {| PrimeVul.written := [];
     PrimeVul.total := 2;
     PrimeVul.kept := 0;
     PrimeVul.raised := None |}.
Proof. repeat split; by vm_compute. Qed.

Section ShuffleFacts.
Import Py Transform.

Variable rng : Type.
Variable seed_rng : Z -> rng.
Variable randbelow : nat -> rng -> nat * rng.

Lemma insert_Permutation {A} (x : list A) (i : nat) (a b : A) :
  x !! i = Some a -> <[i:=b]> x ≡ₚ b :: delete i x.
Proof.
  intros H. pose proof (lookup_lt_Some _ _ _ H).
  rewrite insert_take_drop, delete_take_drop by done.
  by rewrite <- Permutation_middle.
Qed.

(** Exchanging two places keeps the items. *)
Lemma swap_Permutation {A} (i j : nat) (x x' : list A) :
  swap i j x = Ok x' -> x' ≡ₚ x.
Proof.
  unfold swap. destruct (x !! i) as [a|] eqn:Hi; [|done].
  destruct (x !! j) as [b|] eqn:Hj; [|done]. intros [= <-].
  set (y := <[i:=b]> x).
  assert (y !! j = Some b) as Hyj.
  { unfold y. destruct (decide (i = j)) as [->|Hne].
    - apply list_lookup_insert_eq. by eapply lookup_lt_Some.
    - by rewrite list_lookup_insert_ne. }
  assert (y ≡ₚ b :: delete i x) as Hy by (by eapply insert_Permutation).
  assert (delete j y ≡ₚ delete i x) as Hd.
  { eapply (Permutation_cons_inv (a:=b)).
    rewrite <- Hy. symmetry. by apply delete_Permutation. }
  rewrite (insert_Permutation y j b a Hyj), Hd.
  symmetry. by apply delete_Permutation.
Qed.

Lemma swap_ok {A} (i j : nat) (x : list A) :
  (i < length x)%nat -> (j < length x)%nat -> exists x', swap i j x = Ok x'.
Proof.
  intros Hi Hj. unfold swap.
  destruct (lookup_lt_is_Some_2 x i Hi) as [a ->].
  destruct (lookup_lt_is_Some_2 x j Hj) as [b ->]. eauto.
Qed.

Lemma shuffle_loop_Permutation {A} (i : nat) (x x' : list A) (g g' : rng) :
  shuffle_loop rng randbelow i x g = Ok (x', g') -> x' ≡ₚ x.
Proof.
  revert x g. induction i as [|i IH]; intros x g; cbn [shuffle_loop].
  - by intros [= <- _].
  - destruct (randbelow (S i + 1) g) as [j g1] eqn:Hr.
    destruct (swap (S i) j x) as [x1|e] eqn:Hs; cbn [mbind result_bind]; [|done].
    intros H. rewrite (IH _ _ H). by eapply swap_Permutation.
Qed.

(** A shuffle returns the items it was given, in some order. *)
Lemma shuffle_Permutation {A} (x x' : list A) (g g' : rng) :
  shuffle rng randbelow x g = Ok (x', g') -> x' ≡ₚ x.
Proof. apply shuffle_loop_Permutation. Qed.

Hypothesis randbelow_lt :
  forall n g, (0 < n)%nat -> ((randbelow n g).1 < n)%nat.

Lemma shuffle_loop_ok {A} (i : nat) (x : list A) (g : rng) :
  (i < length x)%nat \/ i = O ->
  exists x' g', shuffle_loop rng randbelow i x g = Ok (x', g').
Proof.
  revert x g. induction i as [|i IH]; intros x g Hi; cbn [shuffle_loop]; [eauto|].
  destruct Hi as [Hi|]; [|done].
  pose proof (randbelow_lt (S i + 1) g ltac:(lia)) as Hj.
  destruct (randbelow (S i + 1) g) as [j g1]. simpl in Hj.
  destruct (swap_ok (S i) j x Hi ltac:(lia)) as [x1 Hs]. rewrite Hs.
  cbn [mbind result_bind]. apply IH.
  apply swap_Permutation, Permutation_length in Hs. lia.
Qed.

(** With a generator that keeps below its bound, a shuffle never fails. *)
Lemma shuffle_ok {A} (x : list A) (g : rng) :
  exists x' g', shuffle rng randbelow x g = Ok (x', g').
Proof. apply shuffle_loop_ok. destruct x; simpl; [by right|left; lia]. Qed.

End ShuffleFacts.

Section BucketFacts.
Import Py Transform Spec.

Lemma binary_round_aux_sign s m e l :
  match binary_round_aux prec emax s m e l with
  | S754_zero s' | S754_infinity s' | S754_finite s' _ _ => s' = s
  | S754_nan => True
  end.
Proof.
  unfold binary_round_aux.
  destruct (shr_fexp prec emax m e l) as [mrs' e'].
  destruct (shr_fexp prec emax _ e' loc_Exact) as [mrs'' e''].
  destruct (shr_m mrs''); try done. by destruct (_ <=? _).
Qed.

Lemma float_of_nat_sign (n : nat) :
  match float_of_int (Z.of_nat n) with
  | S754_zero s' | S754_infinity s' | S754_finite s' _ _ => s' = false
  | S754_nan => True
  end.
Proof.
  unfold float_of_int, binary_normalize.
  destruct (Z.of_nat n) eqn:Hn; [done| |lia].
  unfold binary_round. destruct (shl_align _ _ _). apply binary_round_aux_sign.
Qed.

(** A non-negative ratio scales a length to a non-negative size. *)
Lemma scaled_nonneg (n : nat) (r : spec_float) (z : Z) :
  ratio_nonneg r -> scaled n r = Ok z -> 0 <= z.
Proof.
  unfold scaled, float_mul. intros Hr.
  pose proof (float_of_nat_sign n) as Hn.
  destruct (float_of_int (Z.of_nat n)) as [s|s| |s m e], r as [s'|s'| |s' m' e'];
    simpl in *; subst; try done; try (intros [= <-]; lia).
  pose proof (binary_round_aux_sign false (Z.pos (m * m')) (e + e') loc_Exact) as H.
  destruct (binary_round_aux _ _ _ _ _ _) as [s|s| |s m1 e1]; simpl; try done.
  - intros [= <-]; lia.
  - subst s. intros [= <-]. unfold floor_mag.
    destruct (0 <=? e1) eqn:He.
    + apply Z.leb_le in He. assert (0 < 2 ^ e1) by (apply Z.pow_pos_nonneg; lia). lia.
    + apply Z.leb_gt in He. apply Z.div_pos; [lia|]. apply Z.pow_pos_nonneg; lia.
Qed.

Lemma bound_nonneg (len : nat) (i : Z) :
  0 <= i -> bound len i = (Z.to_nat i `min` len)%nat.
Proof. intros H. unfold bound. destruct (i <? 0) eqn:E; lia. Qed.

(** Three consecutive slices with non-negative bounds make up the list. *)
Lemma slices_partition {A} (b : list A) (n_tr n_va : Z) :
  0 <= n_tr -> 0 <= n_va ->
  slice b 0 n_tr = take (Z.to_nat n_tr) b /\
  slice b n_tr (n_tr + n_va) = take (Z.to_nat n_va) (drop (Z.to_nat n_tr) b) /\
  slice_from b (n_tr + n_va) = drop (Z.to_nat n_tr + Z.to_nat n_va) b /\
  (slice b 0 n_tr ++ slice b n_tr (n_tr + n_va) ++ slice_from b (n_tr + n_va))%list = b.
Proof.
  intros H1 H2. unfold slice, slice_from.
  rewrite !bound_nonneg by lia. change (Z.to_nat 0) with O.
  assert (take (Z.to_nat n_tr `min` length b - 0 `min` length b) (drop (0 `min` length b) b)
          = take (Z.to_nat n_tr) b) as ->.
  { rewrite Nat.min_0_l, Nat.sub_0_r, drop_0.
    destruct (Nat.min_spec (Z.to_nat n_tr) (length b)) as [[? ->]|[? ->]]; [done|].
    by rewrite !take_ge by lia. }
  assert (take (Z.to_nat (n_tr + n_va) `min` length b - Z.to_nat n_tr `min` length b)
            (drop (Z.to_nat n_tr `min` length b) b)
          = take (Z.to_nat n_va) (drop (Z.to_nat n_tr) b)) as ->.
  { destruct (Nat.min_spec (Z.to_nat n_tr) (length b)) as [[? ->]|[? ->]].
    - destruct (Nat.min_spec (Z.to_nat (n_tr + n_va)) (length b)) as [[? ->]|[? ->]].
      + f_equal. lia.
      + rewrite !take_ge; [done| |]; rewrite length_drop; lia.
    - rewrite !drop_ge by lia. by rewrite !take_nil. }
  assert (drop (Z.to_nat (n_tr + n_va) `min` length b) b
          = drop (Z.to_nat n_tr + Z.to_nat n_va) b) as ->.
  { destruct (Nat.min_spec (Z.to_nat (n_tr + n_va)) (length b)) as [[? ->]|[? ->]].
    - f_equal. lia.
    - by rewrite !drop_ge by lia. }
  repeat split.
  rewrite <- drop_drop, take_drop. by rewrite take_drop.
Qed.




End BucketFacts.

Section SplitterTheorems.
Import Py Transform Spec.

Variable rng : Type.
Variable seed_rng : Z -> rng.
Variable randbelow : nat -> rng -> nat * rng.


Lemma split_bucket_parts {A} ratios (b : list A) (n_tr n_va : Z) :
  ratio_nonneg ratios.1.1 -> ratio_nonneg ratios.1.2 ->
  scaled (length b) ratios.1.1 = Ok n_tr ->
  scaled (length b) ratios.1.2 = Ok n_va ->
  split_bucket ratios b =
    Ok (take (Z.to_nat n_tr) b,
        take (Z.to_nat n_va) (drop (Z.to_nat n_tr) b),
        drop (Z.to_nat n_tr + Z.to_nat n_va) b).
Proof.
  intros H1 H2 E1 E2. unfold split_bucket. rewrite E1, E2. simpl.
  destruct (slices_partition b n_tr n_va) as (-> & -> & -> & _);
    eauto using scaled_nonneg.
Qed.


Lemma is_ok_value {A} (r : result A) : is_ok r = true -> exists a, r = Ok a.
Proof. destruct r; [eauto|done]. Qed.

Hypothesis randbelow_lt :
  forall n g, (0 < n)%nat -> ((randbelow n g).1 < n)%nat.


(** C5: [stratified_split] starts by seeding the generator, so whatever
    state the generator was in before the call, the same rows, seed and
    ratios give the same three lists, row for row, and leave the generator in
    the same state. *)
Theorem stratified_split_deterministic (rows : list row) (seed : Z)
    (ratios : spec_float * spec_float * spec_float) (g0 g0' : rng) :
  stratified_split rng seed_rng randbelow rows seed ratios g0 =
  stratified_split rng seed_rng randbelow rows seed ratios g0'.
Proof. reflexivity. Qed.

End SplitterTheorems.

Lemma sample_randbelow_lt (n : nat) (g : Sample.rng) :
  (0 < n)%nat -> ((Sample.randbelow n g).1 < n)%nat.
Proof.
  intros Hn. unfold Sample.randbelow. simpl.
  pose proof (N.mod_lt g (N.of_nat n)). lia.
Qed.



Section TableFacts.
Import Py Augment Spec.

Lemma lookup_update_eq c s cols :
  lookup_column c (update_column c s cols) = Some s.
Proof.
  induction cols as [|[c' s'] t IH]; simpl.
  - by rewrite decide_True.
  - destruct (decide (c = c')) as [<-|Hne]; simpl.
    + by rewrite decide_True.
    + by rewrite decide_False.
Qed.

Lemma lookup_update_ne c c' s cols :
  c' <> c -> lookup_column c' (update_column c s cols) = lookup_column c' cols.
Proof.
  intros Hne. induction cols as [|[c'' s''] t IH]; simpl.
  - by rewrite decide_False.
  - destruct (decide (c = c'')) as [<-|Hne']; simpl.
    + by rewrite !decide_False.
    + destruct (decide (c' = c'')); [done|apply IH].
Qed.

Lemma lookup_update c c' s cols :
  lookup_column c' (update_column c s cols) =
  if decide (c' = c) then Some s else lookup_column c' cols.
Proof.
  destruct (decide (c' = c)) as [->|Hne];
    [apply lookup_update_eq|by apply lookup_update_ne].
Qed.

Lemma names_update c s cols :
  (update_column c s cols).*1 =
  if bool_decide (c ∈ cols.*1) then cols.*1 else (cols.*1 ++ [c])%list.
Proof.
  induction cols as [|[c' s'] t IH].
  - case_bool_decide as H; [set_solver|done].
  - cbn [update_column]. destruct (decide (c = c')) as [<-|Hne].
    + rewrite !fmap_cons. cbn [fst].
      clear IH. case_bool_decide as H; [done|]. exfalso. apply H. set_solver.
    + rewrite !fmap_cons, IH. cbn [fst].
      repeat case_bool_decide; try done; set_solver.
Qed.

Lemma lookup_column_names c cols :
  is_Some (lookup_column c cols) <-> c ∈ cols.*1.
Proof.
  induction cols as [|[c' s'] t IH]; simpl.
  - split; [by intros [? ?]|set_solver].
  - destruct (decide (c = c')) as [<-|Hne].
    + split; [set_solver|eauto].
    + rewrite IH. set_solver.
Qed.

Lemma has_column_lookup c df :
  has_column c df = bool_decide (is_Some (lookup_column c (columns df))).
Proof.
  unfold has_column, names. apply bool_decide_ext.
  symmetry. apply lookup_column_names.
Qed.

Lemma lookup_column_elem c s cols :
  lookup_column c cols = Some s -> (c, s) ∈ cols.
Proof.
  induction cols as [|[c' s'] t IH]; simpl; [done|].
  destruct (decide (c = c')) as [<-|Hne].
  - intros [= ->]. left.
  - intros H. right. by apply IH.
Qed.

Lemma bind_Ok {A B} (m : result A) (f : A -> result B) (b : B) :
  m ≫= f = Ok b -> exists a, m = Ok a /\ f a = Ok b.
Proof. destruct m as [a|e]; [|done]. intros H. by exists a. Qed.


(** A fallible map that never fails is a map. *)
Lemma mapM_Ok_map {A B} (f : A -> B) (l : list A) :
  mapM (fun a => Ok (f a)) l = Ok (map f l).
Proof. induction l as [|a l IH]; simpl; [done|]. by rewrite IH. Qed.

Lemma mapM_map {A B C} (g : A -> B) (f : B -> result C) (l : list A) :
  mapM f (map g l) = mapM (fun a => f (g a)) l.
Proof. induction l as [|a l IH]; simpl; [done|]. by rewrite IH. Qed.

Lemma mapM_Ok_Forall2 {A B} (f : A -> result B) (l : list A) (k : list B) :
  mapM f l = Ok k <-> Forall2 (fun a b => f a = Ok b) l k.
Proof.
  revert k. induction l as [|a l IH]; intros k; simpl.
  - split; [intros [= <-]; constructor|by inversion 1].
  - destruct (f a) as [b|e] eqn:Hf; simpl.
    + destruct (mapM f l) as [k'|e] eqn:Hm; simpl.
      * split.
        -- unfold mret, result_ret. intros [= <-]. constructor; [done|by apply IH].
        -- inversion 1 as [|? b' ? k'' Hb Hk]; subst.
           apply IH in Hk. cbv beta in Hb. change (Ok (b :: k') = Ok (b' :: k'')).
           congruence.
      * split; [done|]. inversion 1 as [|? b' ? k'' Hb Hk]; subst.
        by apply IH in Hk.
    + split; [done|]. inversion 1 as [|? b' ? k'' Hb Hk]; subst.
      cbv beta in Hb. congruence.
Qed.

Lemma keep_map {A B} (f : A -> B) mask (l : list A) :
  keep mask (map f l) = map f (keep mask l).
Proof.
  revert l. induction mask as [|b mask IH]; intros [|x l]; simpl; try done.
  destruct b; simpl; by rewrite IH.
Qed.


Lemma keep_sublist {A} mask (l : list A) : sublist (keep mask l) l.
Proof.
  revert l. induction mask as [|b mask IH]; intros [|x l]; simpl;
    try apply sublist_nil_l.
  destruct b; [by apply sublist_skip|by apply sublist_cons].
Qed.

End TableFacts.

Section NormaliserFacts.
Import Py Augment Spec.

Variable float_repr : spec_float -> string.
Variable numeric_of_string : string -> option number.
Variable astype_str_keeps_na : bool.
Variable cast_overflow : spec_float -> Z.

Abbreviation ensure := (ensure_reposvul_schema float_repr numeric_of_string astype_str_keeps_na cast_overflow).
Abbreviation text d := (fun v => fillna d (astype_str float_repr astype_str_keeps_na v)).

Lemma fill_missing_nrows df c : nrows (fill_missing df c) = nrows df.
Proof. unfold fill_missing. by destruct (has_column c df). Qed.

Lemma fill_missing_lookup df c c' :
  lookup_column c' (columns (fill_missing df c)) =
  if decide (c' = c) then Some (column_or_missing df c)
  else lookup_column c' (columns df).
Proof.
  unfold fill_missing, column_or_missing. rewrite has_column_lookup.
  case_bool_decide as H.
  - destruct (decide (c' = c)) as [->|]; [|done].
    by destruct H as [s ->].
  - apply eq_None_not_Some in H. rewrite H. simpl.
    unfold setitem_scalar, setitem. simpl. apply lookup_update.
Qed.

Lemma column_or_missing_fill df c c' :
  column_or_missing (fill_missing df c) c' = column_or_missing df c'.
Proof.
  unfold column_or_missing at 1.
  rewrite fill_missing_lookup, fill_missing_nrows.
  by destruct (decide (c' = c)) as [->|].
Qed.

Lemma fill_all_nrows cs df : nrows (foldl fill_missing df cs) = nrows df.
Proof.
  revert df. induction cs as [|c cs IH]; intros df; simpl; [done|].
  by rewrite IH, fill_missing_nrows.
Qed.

Lemma fill_all_lookup cs df c' :
  lookup_column c' (columns (foldl fill_missing df cs)) =
  if bool_decide (c' ∈ cs) then Some (column_or_missing df c')
  else lookup_column c' (columns df).
Proof.
  revert df. induction cs as [|c cs IH]; intros df; simpl.
  - done.
  - rewrite IH, column_or_missing_fill, fill_missing_lookup.
    destruct (decide (c' = c)) as [->|Hne].
    + rewrite (bool_decide_eq_true_2 (c ∈ c :: cs)) by set_solver.
      by case_bool_decide.
    + repeat case_bool_decide; try done; set_solver.
Qed.

Lemma fill_all_required df c :
  c ∈ required_cols ->
  lookup_column c (columns (foldl fill_missing df required_cols)) =
  Some (column_or_missing df c).
Proof. intros H. rewrite fill_all_lookup. by rewrite bool_decide_eq_true_2. Qed.

Lemma result_bind_ext {A B} (f g : A -> result B) (r : result A) :
  (forall a, f a = g a) -> r ≫= f = r ≫= g.
Proof. intros H. destruct r; simpl; [apply H|done]. Qed.

Ltac literal :=
  repeat first [rewrite decide_True by done | rewrite decide_False by done].

Ltac required :=
  unfold required_cols;
  repeat first [apply list_elem_of_here | apply list_elem_of_further].

(** The normaliser, column by column. *)
Lemma ensure_reposvul_schema_eq (df : DataFrame) :
  ensure df =
  t ← mapM (astype_int cast_overflow)
        (map (fun v => fillna (CInt 0) (to_numeric numeric_of_string v))
             (column_or_missing df "target"));
  Ok {| nrows := nrows df;
        columns :=
          [ ("processed_func",
             map (fun v => clean_code float_repr
                             (astype_str float_repr astype_str_keeps_na v))
                 (column_or_missing df "processed_func"));
            ("target", t);
            ("vul_func_with_fix",
             map (text (CStr "-")) (column_or_missing df "vul_func_with_fix"));
            ("cve_id", map (text (CStr "-")) (column_or_missing df "cve_id"));
            ("cwe_id", map (text (CStr "['-']")) (column_or_missing df "cwe_id"));
            ("commit_id", map (text (CStr "-")) (column_or_missing df "commit_id"));
            ("file_path", map (text (CStr "-")) (column_or_missing df "file_path"));
            ("file_language",
             map (text (CStr "C")) (column_or_missing df "file_language"));
            ("flaw_line_index",
             map (text (CStr "[]")) (column_or_missing df "flaw_line_index"));
            ("flaw_line", map (text (CStr "")) (column_or_missing df "flaw_line")) ] |}.
Proof.
  unfold ensure_reposvul_schema.
  generalize (fill_all_required df) (fill_all_nrows required_cols df).
  generalize (foldl fill_missing df required_cols). intros df0 H0 N0.
  unfold normalize_text, getitem, setitem. cbn [columns nrows].
  rewrite (H0 "processed_func") by required. cbn [mbind result_bind].
  rewrite lookup_update, (H0 "target") by required. literal.
  cbn [mbind result_bind]. apply result_bind_ext. intros t.
  cbn [mbind result_bind].
  do 8 (rewrite !lookup_update, H0 by required; literal;
        cbn [mbind result_bind columns nrows]).
  unfold select, getitem, required_cols. cbn [columns nrows mapM].
  repeat (rewrite !lookup_update; literal; cbn [mbind result_bind mret result_ret]).
  by rewrite N0.
Qed.

End NormaliserFacts.

Section NormaliserTheorems.
Import Py Augment Spec.

Variable float_repr : spec_float -> string.
Variable numeric_of_string : string -> option number.
Variable astype_str_keeps_na : bool.
Variable cast_overflow : spec_float -> Z.

Abbreviation ensure :=
  (ensure_reposvul_schema float_repr numeric_of_string astype_str_keeps_na cast_overflow).
Abbreviation norm :=
  (normalize_cell float_repr numeric_of_string astype_str_keeps_na cast_overflow).

Ltac literal :=
  repeat first [rewrite decide_True by done | rewrite decide_False by done].

Ltac required :=
  unfold required_cols;
  repeat first [apply list_elem_of_here | apply list_elem_of_further].

Ltac each_required H :=
  unfold required_cols in H;
  repeat (apply elem_of_cons in H as [->|H]);
  [..|by apply elem_of_nil in H].

(** The table the normaliser returns has the required columns, in their
    order, and as many rows as it was given. *)
Lemma ensure_names (df df' : DataFrame) :
  ensure df = Ok df' -> names df' = required_cols /\ nrows df' = nrows df.
Proof.
  rewrite ensure_reposvul_schema_eq.
  destruct (mapM (astype_int cast_overflow) _) as [t|e]; [|done].
  by intros [= <-].
Qed.

(** Every column of the result is the column it was given, or the fill of
    a column it was not given, normalised cell by cell. *)
Lemma ensure_column (df df' : DataFrame) (c : string) :
  ensure df = Ok df' -> c ∈ required_cols ->
  exists s',
    lookup_column c (columns df') = Some s' /\
    mapM (norm c) (column_or_missing df c) = Ok s'.
Proof.
  rewrite ensure_reposvul_schema_eq.
  destruct (mapM (astype_int cast_overflow) _) as [t|e] eqn:Ht; [|done].
  intros [= <-] Hc. cbn [columns].
  each_required Hc; cbn [lookup_column]; literal;
    (eexists; split; [reflexivity|]);
    unfold normalize_cell; literal; first [apply mapM_Ok_map | idtac].
  rewrite mapM_map in Ht. exact Ht.
Qed.

Lemma text_normal (d : string) (v : cell) :
  exists t, fillna (CStr d) (astype_str float_repr astype_str_keeps_na v) = CStr t.
Proof.
  unfold astype_str, fillna.
  destruct (astype_str_keeps_na && isna v) eqn:E; simpl; [|eauto].
  apply andb_true_iff in E as [_ ->]. eauto.
Qed.

Lemma text_fixed (d : cell) (t : string) :
  fillna d (astype_str float_repr astype_str_keeps_na (CStr t)) = CStr t.
Proof. unfold astype_str, fillna. simpl. by rewrite andb_false_r. Qed.

Lemma code_fixed (t : string) :
  clean_text t = t ->
  clean_code float_repr (astype_str float_repr astype_str_keeps_na (CStr t))
    = CStr t.
Proof.
  intros H. unfold astype_str, clean_code. simpl. rewrite andb_false_r.
  simpl. by rewrite H.
Qed.

Lemma wrap_int64_range (z : Z) : in_int64 (wrap_int64 z) = true.
Proof.
  unfold in_int64, wrap_int64.
  pose proof (Z.mod_pos_bound (z + 2 ^ 63) (2 ^ 64) ltac:(lia)).
  apply andb_true_iff. split; [apply Z.leb_le|apply Z.ltb_lt]; lia.
Qed.

Lemma wrap_int64_fixed (z : Z) : in_int64 z = true -> wrap_int64 z = z.
Proof.
  unfold in_int64, wrap_int64. intros [H1 H2]%andb_true_iff.
  apply Z.leb_le in H1. apply Z.ltb_lt in H2.
  rewrite Z.mod_small by lia. lia.
Qed.

(** The cast gives a whole number of [int64]. *)
Lemma astype_int_CInt (v w : cell) :
  astype_int cast_overflow v = Ok w ->
  exists z, w = CInt z /\ in_int64 z = true.
Proof.
  destruct v as [s|z|b|[s|[]| |s m e]]; simpl; intros [= <-];
    eexists; (split; [reflexivity|]);
    try apply wrap_int64_range; try done; try (by destruct b).
  destruct (in_int64 (if s then _ else _)) eqn:E; [done|apply wrap_int64_range].
Qed.

Lemma map_fixed {A} (f : A -> A) (P : A -> Prop) (l : list A) :
  (forall a, P a -> f a = a) -> Forall P l -> map f l = l.
Proof. intros Hf. induction 1; simpl; [done|]. by rewrite Hf, IHForall. Qed.

Lemma mapM_fixed {A} (f : A -> result A) (P : A -> Prop) (l : list A) :
  (forall a, P a -> f a = Ok a) -> Forall P l -> mapM f l = Ok l.
Proof. intros Hf. induction 1; simpl; [done|]. by rewrite Hf, IHForall. Qed.

(** What the normaliser returns is a normal table. *)
Lemma ensure_normal (df df' : DataFrame) : ensure df = Ok df' -> normal df'.
Proof.
  rewrite ensure_reposvul_schema_eq.
  destruct (mapM (astype_int cast_overflow) _) as [t|e] eqn:Ht; [|done].
  intros [= <-]. split; [done|]. cbn [columns].
  repeat apply Forall_cons_2; try apply Forall_nil_2; cbn [fst snd];
    unfold normal_cell; literal.
  - apply Forall_map, Forall_true. intros v. unfold clean_code.
    eexists; split; [done|]. apply clean_text_idemp.
  - apply mapM_Ok_Forall2 in Ht. clear -Ht.
    induction Ht as [|v w l k Hv _ IH]; constructor; [|done].
    by apply astype_int_CInt in Hv.
  - apply Forall_map, Forall_true. intros v. apply text_normal.
  - apply Forall_map, Forall_true. intros v. apply text_normal.
  - apply Forall_map, Forall_true. intros v. apply text_normal.
  - apply Forall_map, Forall_true. intros v. apply text_normal.
  - apply Forall_map, Forall_true. intros v. apply text_normal.
  - apply Forall_map, Forall_true. intros v. apply text_normal.
  - apply Forall_map, Forall_true. intros v. apply text_normal.
  - apply Forall_map, Forall_true. intros v. apply text_normal.
Qed.

(** The normaliser leaves a normal table as it is. *)
Lemma normal_ensure (df : DataFrame) : normal df -> ensure df = Ok df.
Proof.
  destruct df as [n cols]. intros [Hn Hc]. unfold names in Hn. cbn in Hn, Hc.
  unfold required_cols in Hn.
  do 10 (destruct cols as [|[? ?] cols]; [done|];
         rewrite fmap_cons in Hn; cbn [fst] in Hn;
         apply (inj2 cons) in Hn as [-> Hn]).
  destruct cols; [clear Hn|done].
  repeat (apply Forall_cons in Hc as [? Hc]). clear Hc. cbn [fst snd] in *.
  rewrite ensure_reposvul_schema_eq. unfold column_or_missing.
  cbn [columns nrows lookup_column]. literal. cbn [default].
  unfold normal_cell in *.
  repeat match goal with
         | H : Forall _ _ |- _ => revert H; literal; intros H
         end.
  rewrite mapM_map.
  rewrite (mapM_fixed _ (fun v => exists z, v = CInt z /\ in_int64 z = true));
    [|by intros v (z & -> & Hz); simpl; rewrite wrap_int64_fixed|done].
  cbn [mbind result_bind].
  rewrite (map_fixed _ (fun v => exists t, v = CStr t /\ clean_text t = t));
    [|by intros v (t & -> & Ht); apply code_fixed|done].
  rewrite !(map_fixed _ (fun v => exists t, v = CStr t));
    try done; by intros v [t ->]; apply text_fixed.
Qed.

Lemma getitem_lookup (df : DataFrame) (c : string) (s : Series) :
  lookup_column c (columns df) = Some s -> getitem df c = Ok s.
Proof. unfold getitem. by intros ->. Qed.

(** Row by row: the cell of the result at a place is the cell given at that
    place, normalised. *)
Lemma ensure_cell (df df' : DataFrame) (c : string) (i : nat) (v : cell) :
  ensure df = Ok df' -> c ∈ required_cols ->
  column_or_missing df c !! i = Some v ->
  exists s' w, getitem df' c = Ok s' /\ s' !! i = Some w /\ norm c v = Ok w.
Proof.
  intros He Hc Hv. destruct (ensure_column df df' c He Hc) as (s' & Hs & Hm).
  apply mapM_Ok_Forall2 in Hm.
  destruct (Forall2_lookup_l _ _ _ _ _ Hm Hv) as (w & Hw & Hn).
  exists s', w. auto using getitem_lookup.
Qed.

Lemma column_or_missing_absent (df : DataFrame) (c : string) :
  has_column c df = false ->
  column_or_missing df c = replicate (nrows df) (missing_value c).
Proof.
  rewrite has_column_lookup. intros H%bool_decide_eq_false.
  apply eq_None_not_Some in H. unfold column_or_missing. by rewrite H.
Qed.

Lemma column_or_missing_present (df : DataFrame) (c : string) (s : Series) :
  getitem df c = Ok s -> column_or_missing df c = s.
Proof.
  unfold getitem, column_or_missing.
  destruct (lookup_column c (columns df)); [|done]. by intros [= ->].
Qed.

(** What the normaliser fills in: the table it returns has exactly the
    required columns in their fixed order.  A column the table lacks is
    filled with "-", file_language and cwe_id included, but flaw_line_index
    with "[]" and flaw_line with the empty text.  A target that reads as no
    number becomes 0.  Where the text conversion keeps a missing value
    missing, a missing value of a text column that is there becomes the
    value given for the column: "C" for file_language, "['-']" for cwe_id. *)
Theorem ensure_reposvul_schema_defaults (df df' : DataFrame) :
  ensure df = Ok df' ->
  names df' = required_cols /\
  (forall c, c ∈ required_cols -> c <> "target" -> has_column c df = false ->
     getitem df' c = Ok (replicate (nrows df) (missing_value c))) /\
  (forall i v, column_or_missing df "target" !! i = Some v ->
     isna (to_numeric numeric_of_string v) = true ->
     exists t, getitem df' "target" = Ok t /\ t !! i = Some (CInt 0)) /\
  (astype_str_keeps_na = true ->
   forall c s i, c ∈ required_cols -> c <> "processed_func" -> c <> "target" ->
     getitem df c = Ok s -> s !! i = Some NaN ->
     exists t, getitem df' c = Ok t /\ t !! i = Some (na_value c)).
Proof.
  intros He. split; [by apply ensure_names in He as [? ?]|]. split; [|split].
  - intros c Hc Ht Hmiss.
    destruct (ensure_column df df' c He Hc) as (s' & Hs & Hm).
    rewrite (getitem_lookup _ _ _ Hs). f_equal.
    rewrite column_or_missing_absent in Hm by done.
    assert (norm c (missing_value c) = Ok (missing_value c)) as Hfix.
    { unfold normalize_cell, missing_value. rewrite (decide_False (P := c = "target")) by done.
      destruct (decide (c = "processed_func")) as [->|].
      - literal. by rewrite code_fixed.
      - repeat case_decide; by rewrite text_fixed. }
    rewrite (mapM_fixed _ (fun v => v = missing_value c)) in Hm.
    + by injection Hm.
    + by intros v ->.
    + apply Forall_replicate. done.
  - intros i v Hv Hna.
    destruct (ensure_cell df df' "target" i v He) as (t & w & Ht & Hw & Hn);
      [required|done|].
    exists t. split; [done|]. unfold normalize_cell in Hn. revert Hn. literal.
    unfold fillna. rewrite Hna. simpl. by intros [= <-].
  - intros Hk c s i Hc Hp Ht Hs Hi.
    apply column_or_missing_present in Hs as <-.
    destruct (ensure_cell df df' c i NaN He Hc Hi) as (t & w & Hg & Hw & Hn).
    exists t. split; [done|]. unfold normalize_cell in Hn.
    rewrite !decide_False in Hn by done.
    unfold astype_str, fillna in Hn. rewrite Hk in Hn. simpl in Hn.
    by injection Hn as <-.
Qed.

(** C8: normalising what the normaliser returned gives it back, and the
    normaliser fails the second time only if it failed the first time.  The
    result has as many rows as the table given, and the cell of a column at
    a row is made from the cell given at that row alone: no row is dropped
    or moved. *)
Theorem ensure_reposvul_schema_idempotent (df : DataFrame) :
  (ensure df ≫= ensure) = ensure df /\
  (forall df', ensure df = Ok df' ->
     nrows df' = nrows df /\
     forall c, c ∈ required_cols ->
       exists s', getitem df' c = Ok s' /\
         Forall2 (fun v w => norm c v = Ok w) (column_or_missing df c) s').
Proof.
  split.
  - destruct (ensure df) as [df'|e] eqn:He; [|done]. cbn [mbind result_bind].
    apply normal_ensure. by apply ensure_normal in He.
  - intros df' He. split; [by apply ensure_names in He as [? ?]|].
    intros c Hc. destruct (ensure_column df df' c He Hc) as (s' & Hs & Hm).
    exists s'. split; [by apply getitem_lookup|by apply mapM_Ok_Forall2].
Qed.

End NormaliserTheorems.

Lemma ensure_reposvul_schema_defaults_witness :
  exists df',
    Augment.ensure_reposvul_schema Sample.float_repr Sample.numeric_of_string
      true Sample.cast_overflow Sample.no_language = Py.Ok df' /\
    Augment.names df' = Augment.required_cols /\
    Augment.getitem df' "flaw_line_index" = Py.Ok [Augment.CStr "[]"].
Proof.
  destruct (Augment.ensure_reposvul_schema Sample.float_repr
              Sample.numeric_of_string true Sample.cast_overflow Sample.no_language)
    as [df'|e] eqn:E; [|by vm_compute in E].
  exists df'. split; [done|].
  destruct (ensure_reposvul_schema_defaults Sample.float_repr
              Sample.numeric_of_string true Sample.cast_overflow Sample.no_language df' E)
    as (Hn & Hmiss & _). split; [done|].
  apply (Hmiss "flaw_line_index"); [|done|by vm_compute].
  unfold Augment.required_cols.
  repeat first [apply list_elem_of_here | apply list_elem_of_further].
Defined.

(** C7 on a table without a file_language column: the normaliser fills
    the column with "-", not with "C", whichever way the text conversion
    treats missing values; "C" is what it puts for a missing value of a
    file_language column that is there, where the text conversion keeps the
    value missing. *)
Lemma ensure_reposvul_schema_language_dash :
  (Augment.ensure_reposvul_schema Sample.float_repr Sample.numeric_of_string
     true Sample.cast_overflow Sample.no_language
     ≫= fun df' => Augment.getitem df' "file_language")
    = Py.Ok [Augment.CStr "-"] /\
  (Augment.ensure_reposvul_schema Sample.float_repr Sample.numeric_of_string
     false Sample.cast_overflow Sample.no_language
     ≫= fun df' => Augment.getitem df' "file_language")
    = Py.Ok [Augment.CStr "-"] /\
  (Augment.ensure_reposvul_schema Sample.float_repr Sample.numeric_of_string
     true Sample.cast_overflow Sample.nan_language
     ≫= fun df' => Augment.getitem df' "file_language")
    = Py.Ok [Augment.CStr "C"].
Proof. repeat split; by vm_compute. Qed.

Section LabelInvariant.
Import Py Transform Augment Spec.

Variable repr_value : json -> string.
Variable json_loads : string -> option json.
Variable float_repr : spec_float -> string.
Variable numeric_of_string : string -> option number.
Variable astype_str_keeps_na : bool.
Variable cast_overflow : spec_float -> Z.





End LabelInvariant.



Section DedupFacts.
Import Py Augment Spec.

Lemma duplicated_length seen (h : Series) :
  length (duplicated seen h) = length h.
Proof.
  revert seen. induction h as [|v h IH]; intros seen; simpl; [done|].
  by rewrite IH.
Qed.

(** The rows kept are pairwise different and none was seen before. *)
Lemma keep_fresh_NoDup seen (h : Series) :
  NoDup (keep (map negb (duplicated seen h)) h) /\
  forall w, w ∈ keep (map negb (duplicated seen h)) h -> w ∉ seen.
Proof.
  revert seen. induction h as [|v h IH]; intros seen; simpl.
  - split; [constructor|]. intros w Hw. by apply elem_of_nil in Hw.
  - destruct (IH (v :: seen)) as [Hnd Hfresh].
    case_bool_decide as Hv; simpl.
    + split; [done|]. intros w Hw Hs. apply (Hfresh w Hw). by right.
    + split.
      * constructor; [|done]. intros Hin. apply (Hfresh v Hin). by left.
      * intros w [->|Hw]%elem_of_cons; [done|].
        intros Hs. apply (Hfresh w Hw). by right.
Qed.

(** Every value of the column was seen before or is kept. *)
Lemma keep_fresh_covers seen (h : Series) (w : cell) :
  w ∈ h -> (w ∈ seen) \/ (w ∈ keep (map negb (duplicated seen h)) h).
Proof.
  revert seen. induction h as [|v h IH]; intros seen Hw; simpl.
  - by apply elem_of_nil in Hw.
  - apply elem_of_cons in Hw as [->|Hw].
    + case_bool_decide; simpl; [by left|right; by left].
    + destruct (IH (v :: seen) Hw) as [[->|Hs]%elem_of_cons|Hk].
      * case_bool_decide; simpl; [by left|right; by left].
      * by left.
      * right. case_bool_decide; simpl; [done|by right].
Qed.

(** A row is kept exactly when its value was not seen and stands at no
    earlier row. *)
Lemma duplicated_first seen (h : Series) (i : nat) :
  map negb (duplicated seen h) !! i = Some true <->
  exists w, h !! i = Some w /\ (w ∉ seen) /\
            forall j, (j < i)%nat -> h !! j <> Some w.
Proof.
  revert seen i. induction h as [|v h IH]; intros seen i; simpl.
  - split; [done|]. by intros (w & Hw & _).
  - destruct i as [|i]; simpl.
    + split.
      * intros [= Hv]. apply negb_true_iff, bool_decide_eq_false in Hv.
        exists v. repeat split; [done|]. intros j Hj. lia.
      * intros (w & [= <-] & Hw & _). f_equal.
        by apply negb_true_iff, bool_decide_eq_false.
    + rewrite IH. split.
      * intros (w & Hi & Hw & Hj). exists w. split; [done|].
        split; [intros Hs; apply Hw; by right|].
        intros [|j] Hlt; simpl.
        -- intros [= ->]. apply Hw. by left.
        -- apply Hj. lia.
      * intros (w & Hi & Hw & Hj). exists w. split; [done|]. split.
        -- intros [->|Hs]%elem_of_cons; [|done]. by apply (Hj 0%nat); [lia|].
        -- intros j Hlt. apply (Hj (S j)). lia.
Qed.

Lemma filter_update_dropped c s cols :
  List.filter (fun p : string * Series => negb (bool_decide (p.1 = c)))
    (update_column c s cols) =
  List.filter (fun p : string * Series => negb (bool_decide (p.1 = c))) cols.
Proof.
  induction cols as [|[c' s'] t IH]; simpl.
  - by rewrite bool_decide_eq_true_2.
  - destruct (decide (c = c')) as [<-|Hne]; simpl.
    + by rewrite !bool_decide_eq_true_2.
    + rewrite bool_decide_eq_false_2 by done. simpl. by rewrite IH.
Qed.

Lemma filter_map_names (f : Series -> Series) (c : string) cols :
  List.filter (fun p : string * Series => negb (bool_decide (p.1 = c)))
    (map (fun p => (p.1, f p.2)) cols) =
  map (fun p => (p.1, f p.2))
    (List.filter (fun p : string * Series => negb (bool_decide (p.1 = c))) cols).
Proof.
  induction cols as [|[c' s'] t IH]; simpl; [done|].
  case_bool_decide; simpl; by rewrite IH.
Qed.

Lemma fingerprints_of (s h : Series) :
  mapM stable_hash_cell s = Ok h -> Forall2 fingerprint_of s h.
Proof.
  intros H%mapM_Ok_Forall2.
  induction H as [|v w s h Hv _ IH]; constructor; [|done].
  destruct v; try done. injection Hv as <-. by eexists.
Qed.

Lemma fingerprint_of_fun (v w w' : cell) :
  fingerprint_of v w -> fingerprint_of v w' -> w = w'.
Proof. intros (t & -> & ->) (t' & [= <-] & ->). done. Qed.

End DedupFacts.

Section DedupTheorem.
Import Py Augment Spec.

(** C6: [deduplicate_by_code] keeps of every column the cells at the rows
    where a fingerprint stands for the first time, in their order, and
    nothing else.  The fingerprints of the rows kept are pairwise different,
    every fingerprint of the table is among them, and every column kept is
    a subsequence of the column given.  The fingerprint is made from the
    processed_func cell alone: a row with the code of an earlier row is
    dropped, whatever its other cells hold. *)
Theorem deduplicate_by_code_spec (df df' : DataFrame) :
  deduplicate_by_code df = Ok df' ->
  exists s h,
    getitem df "processed_func" = Ok s /\
    Forall2 fingerprint_of s h /\
    nrows df' = length (keep (first_seen h) (seq 0 (nrows df))) /\
    columns df' =
      map (fun p => (p.1, keep (first_seen h) p.2))
        (List.filter (fun p => negb (bool_decide (p.1 = "_h"))) (columns df)) /\
    (forall i, first_seen h !! i = Some true <->
               exists w, h !! i = Some w /\
                         forall j, (j < i)%nat -> h !! j <> Some w) /\
    NoDup (keep (first_seen h) h) /\
    (forall w, w ∈ h -> w ∈ keep (first_seen h) h) /\
    (forall col : Series, sublist (keep (first_seen h) col) col) /\
    (forall i j v, (j < i)%nat -> s !! j = Some v -> s !! i = Some v ->
                   first_seen h !! i = Some false).
Proof.
  unfold deduplicate_by_code.
  destruct (getitem df "processed_func") as [s|e] eqn:Hs; [|done].
  cbn [mbind result_bind].
  destruct (mapM stable_hash_cell s) as [h|e] eqn:Hh; [|done].
  cbn [mbind result_bind]. unfold drop_duplicates, getitem, setitem.
  cbn [columns nrows]. rewrite lookup_update_eq. cbn [mbind result_bind].
  intros [= <-]. exists s, h.
  pose proof (fingerprints_of s h Hh) as Hf.
  split; [done|]. split; [done|]. unfold drop_column, filter_rows.
  cbn [columns nrows]. split; [done|]. split.
  { by rewrite filter_map_names, filter_update_dropped. }
  split.
  { intros i. unfold first_seen. rewrite duplicated_first. split.
    - intros (w & ? & _ & ?). eauto.
    - intros (w & ? & ?). exists w. repeat split; try done.
      intros Hw. by apply elem_of_nil in Hw. }
  split; [apply keep_fresh_NoDup|]. split.
  { intros w Hw. destruct (keep_fresh_covers [] h w Hw) as [Hn|]; [|done].
    by apply elem_of_nil in Hn. }
  split; [intros col; apply keep_sublist|].
  intros i j v Hji Hj Hi.
  destruct (Forall2_lookup_l _ _ _ _ _ Hf Hi) as (w & Hwi & Hfi).
  destruct (Forall2_lookup_l _ _ _ _ _ Hf Hj) as (w' & Hwj & Hfj).
  rewrite (fingerprint_of_fun _ _ _ Hfj Hfi) in Hwj.
  destruct (first_seen h !! i) as [[|]|] eqn:Hm; [|done|].
  - apply duplicated_first in Hm as (w0 & Hw0 & _ & Hno).
    unfold Series in *. destruct (Hno j Hji). congruence.
  - apply lookup_ge_None in Hm. apply lookup_lt_Some in Hwi.
    unfold first_seen in Hm. rewrite length_map, duplicated_length in Hm. lia.
Qed.

End DedupTheorem.

Lemma deduplicate_by_code_spec_witness :
  exists df',
    Augment.deduplicate_by_code Sample.repeated = Py.Ok df' /\
    exists h,
      Spec.fingerprints Sample.repeated = Py.Ok h /\
      Augment.nrows df' = length (Augment.keep (Spec.first_seen h) (seq 0 3)) /\
      NoDup (Augment.keep (Spec.first_seen h) h).
Proof.
  destruct (Augment.deduplicate_by_code Sample.repeated) as [df'|e] eqn:E;
    [|by vm_compute in E].
  exists df'. split; [done|].
  destruct (deduplicate_by_code_spec Sample.repeated df' E)
    as (s & h & Hs & Hf & Hn & _ & _ & Hnd & _).
  exists h. split; [|done].
  unfold Spec.fingerprints. rewrite Hs. simpl.
  injection Hs as <-. clear -Hf.
  repeat match goal with
         | H : Forall2 _ (_ :: _) _ |- _ =>
             apply Forall2_cons_inv_l in H as (? & ? & (? & [= <-] & ->) & H & ->)
         | H : Forall2 _ [] _ |- _ => apply Forall2_nil_inv_l in H as ->
         end.
  reflexivity.
Defined.

Section AugmentTheorem.
Import Py Augment Spec.

Variable float_repr : spec_float -> string.
Variable numeric_of_string : string -> option number.
Variable astype_str_keeps_na : bool.
Variable cast_overflow : spec_float -> Z.

Abbreviation ensure :=
  (ensure_reposvul_schema float_repr numeric_of_string astype_str_keeps_na cast_overflow).







End AugmentTheorem.



(* ===================================================================== *)
(** * Part III: further properties of the scripts *)
(* ===================================================================== *)

Section CleanedRows.
Import Py Transform Spec.

Variable repr_value : json -> string.
Variable json_loads : string -> option json.

Lemma cleaned_clean_text (s : string) : cleaned (clean_text s).
Proof.
  destruct (clean_text_chars s) as (H0 & H13 & Hs). repeat split; try done.
  unfold strip. rewrite Hs. apply string_of_list_ascii_of_string.
Qed.

Lemma cleaned_empty : cleaned "".
Proof. repeat split; by intros []. Qed.

Lemma cleaned_clean_code (v : json) : cleaned (clean_code repr_value v).
Proof.
  unfold clean_code. destruct (truthy v);
    [apply cleaned_clean_text|apply cleaned_empty].
Qed.

Lemma cleaned_first_nonempty (ts : list string) :
  Forall cleaned ts -> cleaned (first_nonempty ts).
Proof.
  induction 1 as [|t ts Ht _ IH]; simpl; [apply cleaned_empty|].
  by case_bool_decide.
Qed.

Lemma cleaned_slot_code keys (slot : json) :
  cleaned (slot_code repr_value keys slot).
Proof.
  rewrite slot_code_as_list. destruct (as_list slot) as [|[| | | | | |d] ?];
    try apply cleaned_empty; apply cleaned_clean_code.
Qed.

Lemma cleaned_fb_code (x : json) (c : string) (l : option Z) :
  get_fb_code_and_label repr_value x = Ok (c, l) -> cleaned c.
Proof.
  intros H. apply get_fb_code in H as [-> _].
  destruct x; try apply cleaned_empty; apply cleaned_clean_code.
Qed.

Lemma chain_results (r : result (option Z)) (x y z : string) b l a :
  (l' ← r; Ok (x, l', first_nonempty [y; z; x])) = Ok (b, l, a) ->
  b = x /\ a = first_nonempty [y; z; x].
Proof. destruct r; [|done]. by intros [= <- _ <-]. Qed.

(** What the extractor returns is cleaned, and the after-code is empty only
    if the before-code is. *)
Lemma extract_cleaned (detail : gmap string json) b l a :
  extract_code_and_label repr_value detail = Ok (b, l, a) ->
  cleaned b /\ cleaned a /\ (b <> "" -> a <> "").
Proof.
  rewrite extract_code_and_label_chains. intros H.
  apply bind_Ok in H as ([c l0] & Hfb & H). cbv beta match zeta in H.
  apply chain_results in H as [-> ->].
  assert (cleaned c) as Hc.
  { destruct (as_list _) as [|x ?]; [injection Hfb as <- _; apply cleaned_empty|].
    by eapply cleaned_fb_code. }
  assert (cleaned (first_nonempty
            [c; clean_code repr_value
                  (first_truthy [dict_get detail "code_before";
                                 dict_get detail "code"])])) as Hb.
  { apply cleaned_first_nonempty.
    apply Forall_cons_2; [done|].
    apply Forall_cons_2; [apply cleaned_clean_code|apply Forall_nil_2]. }
  split; [done|]. split; [|apply first_nonempty_last].
  apply cleaned_first_nonempty.
  apply Forall_cons_2; [apply cleaned_slot_code|].
  apply Forall_cons_2; [apply cleaned_clean_code|].
  apply Forall_cons_2; [done|apply Forall_nil_2].
Qed.

(** A row that one detail record gives. *)
Lemma iter_detail_row obj d st r st' :
  iter_detail repr_value obj d st = Ok (Some r, st') ->
  st' = incr "kept" st /\
  exists dd, d = JDict dd /\
    strip_value (por (por (dict_get dd "file_language")
                          (dict_get obj "cve_language")) (JStr ""))
      = Ok (file_language r) /\
    extract_code_and_label repr_value dd =
      Ok (processed_func r, Some (target r), vul_func_with_fix r) /\
    processed_func r <> "".
Proof.
  destruct d as [| | | | | |dd]; try done. cbn [iter_detail]. intros H.
  apply bind_Ok in H as (fl & Hfl & H).
  apply bind_Ok in H as ([[b l] a] & Hx & H). cbv beta iota in H.
  case_bool_decide as Hb; [done|]. destruct l as [v|]; [|done].
  injection H as <- <-. split; [done|]. exists dd. by repeat split.
Qed.

(** A property of every row a detail record can give holds of every row
    the builder yields. *)
Lemma iter_details_Forall (P : row -> Prop) obj ds st :
  (forall d st r st', iter_detail repr_value obj d st = Ok (Some r, st') -> P r) ->
  Forall P (yielded (iter_details repr_value obj ds st)).
Proof.
  intros HP. revert st. induction ds as [|d ds IH]; intros st; simpl; [done|].
  destruct (iter_detail repr_value obj d st) as [[[r|] st']|e] eqn:Hd; simpl;
    [|apply IH|done].
  constructor; [by eapply HP|apply IH].
Qed.

Lemma iter_objects_Forall (P : row -> Prop) objs e st :
  (forall obj d st r st',
     iter_detail repr_value obj d st = Ok (Some r, st') -> P r) ->
  Forall P (yielded (iter_objects repr_value objs e st)).
Proof.
  intros HP. revert st. induction objs as [|o objs IH]; intros st; [done|].
  destruct (json_dict_dec o) as [[obj ->]|Ho];
    [|by rewrite iter_objects_nondict].
  destruct (iter_objects_dict repr_value obj objs e st) as [H1 H2].
  destruct (json_null_dec (dict_get obj "details")) as [Hd|Hd].
  - rewrite (H1 Hd). apply IH.
  - rewrite (H2 Hd). cbv zeta.
    destruct (raised _); [apply iter_details_Forall; eauto|].
    cbn [yield_before yielded]. apply Forall_app; split;
      [apply iter_details_Forall; eauto|apply IH].
Qed.

Lemma strip_value_stripped (v : json) (t : string) :
  strip_value v = Ok t -> strip t = t.
Proof. destruct v; try done. intros [= <-]. apply strip_idemp. Qed.

(** X1: the code of every row the ReposVul row builder yields is cleaned
    (no NUL, no carriage return, no white space at either end) and is not
    empty, the fixed code is cleaned and not empty either, and the language
    has no white space at either end. *)
Theorem iter_rows_cleaned (lines : list string) (st : Counter) :
  Forall (fun r =>
            cleaned (processed_func r) /\ processed_func r <> "" /\
            cleaned (vul_func_with_fix r) /\ vul_func_with_fix r <> "" /\
            strip (file_language r) = file_language r)
         (yielded (iter_rows repr_value json_loads lines st)).
Proof.
  unfold iter_rows. destruct (read_jsonl json_loads lines) as [objs e].
  apply iter_objects_Forall. intros obj d st0 r st' Hr.
  apply iter_detail_row in Hr as (_ & dd & _ & Hfl & Hx & Hne).
  apply extract_cleaned in Hx as (Hb & Ha & Hba).
  apply strip_value_stripped in Hfl. repeat split; auto; apply Hb || apply Ha.
Qed.

End CleanedRows.

Section RowBuilderCounters.
Import Py Transform Spec.

Variable repr_value : json -> string.
Variable json_loads : string -> option json.

Lemma count_incr (k k' : string) (st : Counter) :
  count (incr k st) k' = if decide (k = k') then S (count st k) else count st k'.
Proof.
  unfold count, incr, Counter in *. destruct (decide (k = k')) as [<-|Hne].
  - by rewrite lookup_insert_eq.
  - by rewrite lookup_insert_ne.
Qed.

Lemma iter_detail_kept obj d st r st' :
  iter_detail repr_value obj d st = Ok (r, st') ->
  count st' "kept" = (count st "kept" + length (option_list r))%nat.
Proof.
  intros H. pose proof (iter_detail_cases repr_value obj d st) as Hc.
  rewrite H in Hc. destruct r as [r|]; simpl.
  - destruct Hc as (_ & _ & -> & _). rewrite count_incr, decide_True by done. lia.
  - destruct Hc as [[-> _]|[(? & ? & ? & _ & _ & ->)|(? & ? & ? & _ & _ & _ & ->)]];
      rewrite count_incr, decide_False by done; lia.
Qed.

Lemma iter_details_kept obj ds st :
  let r := iter_details repr_value obj ds st in
  count (stats r) "kept" = (count st "kept" + length (yielded r))%nat.
Proof.
  cbv zeta. revert st. induction ds as [|d ds IH]; intros st; simpl; [lia|].
  destruct (iter_detail repr_value obj d st) as [[r st']|e] eqn:Hd; simpl; [|lia].
  rewrite IH, length_app, (iter_detail_kept _ _ _ _ _ Hd). lia.
Qed.

Lemma iter_objects_kept objs e st :
  let r := iter_objects repr_value objs e st in
  count (stats r) "kept" = (count st "kept" + length (yielded r))%nat.
Proof.
  cbv zeta. revert st. induction objs as [|o objs IH]; intros st; [simpl; lia|].
  destruct (json_dict_dec o) as [[obj ->]|Ho];
    [|rewrite iter_objects_nondict by done; simpl; lia].
  destruct (iter_objects_dict repr_value obj objs e st) as [H1 H2].
  destruct (json_null_dec (dict_get obj "details")) as [Hd|Hd].
  - rewrite (H1 Hd), IH, count_incr, decide_False by done. lia.
  - rewrite (H2 Hd). cbv zeta.
    pose proof (iter_details_kept obj (as_list (dict_get obj "details")) st) as Hk.
    cbv zeta in Hk.
    destruct (raised _); [done|].
    cbn [yield_before yielded stats]. rewrite IH, Hk, length_app. lia.
Qed.

(** X2: the counter [kept] goes up by one for every row the row builder
    yields, and by nothing else: after a run, also one that an exception
    ended, it has grown by the number of rows yielded. *)
Theorem iter_rows_kept (lines : list string) (st : Counter) :
  let r := iter_rows repr_value json_loads lines st in
  count (stats r) "kept" = (count st "kept" + length (yielded r))%nat.
Proof.
  cbv zeta. unfold iter_rows. destruct (read_jsonl json_loads lines) as [objs e].
  apply iter_objects_kept.
Qed.

Lemma read_jsonl_blank (l1 l2 : list string) (blank : string) :
  strip blank = "" ->
  read_jsonl json_loads (l1 ++ blank :: l2) = read_jsonl json_loads (l1 ++ l2).
Proof.
  intros Hb. induction l1 as [|l l1 IH]; simpl.
  - by rewrite bool_decide_eq_true_2.
  - by rewrite IH.
Qed.

End RowBuilderCounters.

Section BlankLines.
Import Py Spec.

Variable repr_value : json -> string.
Variable json_loads : string -> option json.
Variable json_dumps : json -> string.

Lemma extract_loop_blank (l1 l2 : list string) (blank : string) t k :
  strip blank = "" ->
  PrimeVul.extract_loop json_loads json_dumps (l1 ++ blank :: l2) t k =
  PrimeVul.extract_loop json_loads json_dumps (l1 ++ l2) t k.
Proof.
  intros Hb. revert t k. induction l1 as [|l l1 IH]; intros t k; simpl.
  - by rewrite bool_decide_eq_true_2.
  - case_bool_decide; [apply IH|].
    destruct (json_loads (strip l)) as [[| | | | | |sample]|];
      try done; try apply IH.
    destruct (PrimeVul.is_c_function sample); [|apply IH]. by rewrite IH.
Qed.

(** X3: a line of white space alone, wherever it stands in the input,
    changes nothing in what either extractor yields, counts or raises. *)
Theorem blank_line_ignored (l1 l2 : list string) (blank : string) :
  strip blank = "" ->
  (forall st,
     Transform.iter_rows repr_value json_loads (l1 ++ blank :: l2) st =
     Transform.iter_rows repr_value json_loads (l1 ++ l2) st) /\
  PrimeVul.extract_c_functions json_loads json_dumps (l1 ++ blank :: l2) =
  PrimeVul.extract_c_functions json_loads json_dumps (l1 ++ l2).
Proof.
  intros Hb. split.
  - intros st. unfold Transform.iter_rows. by rewrite read_jsonl_blank.
  - by apply extract_loop_blank.
Qed.

End BlankLines.

Lemma blank_line_ignored_witness :
  (forall st,
     Transform.iter_rows Sample.repr_value Sample.json_loads
       (["{}"] ++ "  " :: ["{}"]) st =
     Transform.iter_rows Sample.repr_value Sample.json_loads
       (["{}"] ++ ["{}"]) st) /\
  PrimeVul.extract_c_functions Sample.json_loads Sample.json_dumps
    (["{}"] ++ "  " :: ["{}"]) =
  PrimeVul.extract_c_functions Sample.json_loads Sample.json_dumps
    (["{}"] ++ ["{}"]).
Proof.
  apply (blank_line_ignored Sample.repr_value Sample.json_loads
           Sample.json_dumps ["{}"] ["{}"] "  ").
  reflexivity.
Defined.

Section PrimeVulRows.
Import Py PrimeVul Spec.

Variable json_loads : string -> option json.
Variable json_dumps : json -> string.

(** What [is_c_function] asks of a sample. *)
Lemma is_c_function_true (sample : gmap string json) :
  is_c_function sample = true ->
  exists func,
    get_or_empty sample "func" = JStr func /\ func <> "" /\
    looks_like_cpp func = false /\
    contains "(" func = true /\ contains ")" func = true /\
    contains "{" func = true /\ contains "}" func = true.
Proof.
  unfold is_c_function. destruct (get_or_empty sample "func"); try done.
  case_bool_decide as Hne; [done|].
  destruct (looks_like_cpp s) eqn:Hcpp; [done|].
  destruct (contains "(" s) eqn:H1, (contains ")" s) eqn:H2,
    (contains "{" s) eqn:H3, (contains "}" s) eqn:H4; try done.
  intros _. exists s. by repeat split.
Qed.

Lemma extract_loop_counters (lines : list string) (t k : nat) :
  let r := extract_loop json_loads json_dumps lines t k in
  kept r = (k + length (written r))%nat /\
  map index (written r) = seq k (length (written r)) /\
  (t <= total r)%nat /\ (total r <= t + length lines)%nat /\
  (length (written r) <= total r - t)%nat /\
  Forall (fun row =>
            file_language row = "c" /\ vul_func_with_fix row = "-" /\
            flaw_line_index row = "[]" /\ flaw_line row = "" /\
            exists func, processed_func row = JStr func /\ func <> "" /\
                         looks_like_cpp func = false)
         (written r).
Proof.
  cbv zeta. revert t k. induction lines as [|l lines IH]; intros t k; simpl.
  - repeat split; try lia. constructor.
  - case_bool_decide.
    { destruct (IH t k) as (? & ? & ? & ? & ? & ?). repeat split; try done; lia. }
    destruct (json_loads (strip l)) as [[| | | | | |sample]|]; simpl;
      try (repeat split; try lia; constructor).
    + destruct (is_c_function sample) eqn:Hc; simpl.
      * destruct (IH (S t) (S k)) as (Hk & Hi & Ht & Hl & Hw & Hr).
        apply is_c_function_true in Hc as (func & Hf & Hne & Hcpp & _).
        repeat split; try lia.
        -- by rewrite Hi.
        -- constructor; [|done]. simpl. repeat split; try done. by exists func.
      * destruct (IH (S t) k) as (? & ? & ? & ? & ? & ?).
        repeat split; try done; lia.
    + destruct (IH (S t) k) as (? & ? & ? & ? & ? & ?).
      repeat split; try done; lia.
Qed.

(** X4: in a run of the PrimeVul extractor, [kept] is the number of rows
    written and never more than [total], which is never more than the number
    of lines; the rows are numbered 0, 1, 2, ... in the order written; and
    every row holds a function that is a text, is not empty and does not
    look like C++, with the language "c", the fix "-", the flaw lines "[]"
    and the flaw line empty. *)
Theorem extract_c_functions_rows (lines : list string) :
  let r := extract_c_functions json_loads json_dumps lines in
  kept r = length (written r) /\
  map index (written r) = seq 0 (kept r) /\
  (kept r <= total r)%nat /\ (total r <= length lines)%nat /\
  Forall (fun row =>
            file_language row = "c" /\ vul_func_with_fix row = "-" /\
            flaw_line_index row = "[]" /\ flaw_line row = "" /\
            exists func, processed_func row = JStr func /\ func <> "" /\
                         looks_like_cpp func = false)
         (written r).
Proof.
  cbv zeta. unfold extract_c_functions.
  destruct (extract_loop_counters lines 0 0) as (Hk & Hi & Ht & Hl & Hw & Hr).
  cbv zeta in *. simpl in Hk. rewrite Hk. repeat split; try done; lia.
Qed.

End PrimeVulRows.

Section CppMarkers.
Import Py PrimeVul Spec.

Lemma list_ascii_of_string_app (a b : string) :
  list_ascii_of_string (a ++ b) =
  (list_ascii_of_string a ++ list_ascii_of_string b)%list.
Proof. induction a as [|c a IH]; simpl; [done|]. by rewrite IH. Qed.

Lemma starts_with_app (p l : list ascii) : starts_with p (p ++ l) = true.
Proof.
  induction p as [|a p IH]; simpl; [done|]. by rewrite Ascii.eqb_refl.
Qed.

Lemma contains_chars_starts (p l : list ascii) :
  starts_with p l = true -> contains_chars p l = true.
Proof. destruct l; simpl; by intros ->. Qed.

Lemma contains_chars_app (p a b : list ascii) :
  contains_chars p (a ++ p ++ b) = true.
Proof.
  induction a as [|c a IH].
  - apply contains_chars_starts. exact (starts_with_app p b).
  - cbn [app contains_chars]. rewrite IH. apply orb_true_r.
Qed.

Lemma string_of_list_ascii_app (x y : list ascii) :
  string_of_list_ascii (x ++ y) =
  string_of_list_ascii x ++ string_of_list_ascii y.
Proof. induction x as [|c x IH]; simpl; [done|]. by rewrite IH. Qed.

Lemma lower_app (a b : string) : lower (a ++ b) = lower a ++ lower b.
Proof.
  unfold lower.
  by rewrite list_ascii_of_string_app, map_app, string_of_list_ascii_app.
Qed.

Lemma contains_app (m pre post : string) :
  contains m (pre ++ m ++ post) = true.
Proof.
  unfold contains. rewrite !list_ascii_of_string_app. apply contains_chars_app.
Qed.

(** X5: a C++ marker anywhere in a function, in whatever case it is
    written, makes the function look like C++, and a sample with such a
    function is never taken for a C function. *)
Theorem looks_like_cpp_marker (marker u pre post : string)
    (sample : gmap string json) :
  marker ∈ cpp_markers -> lower u = marker ->
  looks_like_cpp (pre ++ u ++ post) = true /\
  is_c_function (<["func" := JStr (pre ++ u ++ post)]> sample) = false.
Proof.
  intros Hm Hu.
  assert (looks_like_cpp (pre ++ u ++ post) = true) as Hcpp.
  { unfold looks_like_cpp. cbv zeta. apply existsb_exists. exists marker.
    split; [by apply list_elem_of_In|].
    rewrite !lower_app, Hu. apply contains_app. }
  split; [done|].
  unfold is_c_function, get_or_empty. rewrite lookup_insert_eq. simpl.
  case_bool_decide; [done|]. by rewrite Hcpp.
Qed.

End CppMarkers.

Lemma looks_like_cpp_marker_witness :
  PrimeVul.looks_like_cpp ("int *p = " ++ "NULLPTR" ++ ";") = true /\
  PrimeVul.is_c_function
    (<["func" := Py.JStr ("int *p = " ++ "NULLPTR" ++ ";")]> ∅) = false.
Proof.
  apply (looks_like_cpp_marker "nullptr" "NULLPTR" "int *p = " ";" ∅).
  - unfold PrimeVul.cpp_markers.
    repeat first [apply list_elem_of_here | apply list_elem_of_further].
  - reflexivity.
Defined.

Section Stratification.
Import Py Transform Spec.

Variable rng : Type.
Variable seed_rng : Z -> rng.
Variable randbelow : nat -> rng -> nat * rng.

Lemma filter_all {A} (P : A -> Prop) `{!forall x, Decision (P x)} (l : list A) :
  Forall P l -> filter P l = l.
Proof. induction 1; [done|]. rewrite filter_cons_True by done. by f_equal. Qed.

Lemma filter_none {A} (P : A -> Prop) `{!forall x, Decision (P x)} (l : list A) :
  Forall (fun x => ~ P x) l -> filter P l = [].
Proof. induction 1; [done|]. by rewrite filter_cons_False. Qed.

Lemma filter_label_split (v w : Z) (pos neg : list row) :
  v <> w ->
  Forall (fun r => target r = v) pos -> Forall (fun r => target r = w) neg ->
  filter (fun r => target r = v) (pos ++ neg)%list = pos /\
  filter (fun r => target r = w) (pos ++ neg)%list = neg.
Proof.
  intros Hvw Hp Hn. rewrite !filter_app.
  rewrite (filter_all _ pos Hp), (filter_all _ neg Hn).
  rewrite (filter_none (fun r => target r = v) neg),
          (filter_none (fun r => target r = w) pos).
  - by rewrite app_nil_r.
  - eapply Forall_impl; [exact Hp|]. intros r -> ?. done.
  - eapply Forall_impl; [exact Hn|]. intros r -> ?. done.
Qed.

Lemma Forall_take_drop {A} (P : A -> Prop) (l : list A) (i j : nat) :
  Forall P l -> Forall P (take i l) /\ Forall P (take j (drop i l)) /\
                Forall P (drop (i + j) l).
Proof.
  intros H. repeat split.
  - by apply Forall_take.
  - by apply Forall_take, Forall_drop.
  - by apply Forall_drop.
Qed.

Hypothesis randbelow_lt :
  forall n g, (0 < n)%nat -> ((randbelow n g).1 < n)%nat.

(** The splitter, step by step. *)
Lemma stratified_split_steps (rows : list row) (seed : Z)
    (ratios : spec_float * spec_float * spec_float) (g0 : rng) :
  ratio_nonneg ratios.1.1 -> ratio_nonneg ratios.1.2 ->
  (forall n, (n <= length rows)%nat ->
     is_ok (scaled n ratios.1.1) = true /\ is_ok (scaled n ratios.1.2) = true) ->
  exists pos neg p_tr p_va n_tr n_va train val test g,
    pos ≡ₚ filter (fun r => target r = 1) rows /\
    neg ≡ₚ filter (fun r => target r = 0) rows /\
    scaled (length pos) ratios.1.1 = Ok (Z.of_nat p_tr) /\
    scaled (length pos) ratios.1.2 = Ok (Z.of_nat p_va) /\
    scaled (length neg) ratios.1.1 = Ok (Z.of_nat n_tr) /\
    scaled (length neg) ratios.1.2 = Ok (Z.of_nat n_va) /\
    train ≡ₚ take p_tr pos ++ take n_tr neg /\
    val ≡ₚ take p_va (drop p_tr pos) ++ take n_va (drop n_tr neg) /\
    test ≡ₚ drop (p_tr + p_va) pos ++ drop (n_tr + n_va) neg /\
    stratified_split rng seed_rng randbelow rows seed ratios g0
      = Ok (train, val, test, g).
Proof.
  intros Hr1 Hr2 Hfin.
  set (P := filter (fun r => target r = 1) rows).
  set (N := filter (fun r => target r = 0) rows).
  destruct (shuffle_ok rng randbelow randbelow_lt P (seed_rng seed))
    as (pos & g1 & E1).
  destruct (shuffle_ok rng randbelow randbelow_lt N g1) as (neg & g2 & E2).
  pose proof (shuffle_Permutation _ _ _ _ _ _ E1) as Hpos.
  pose proof (shuffle_Permutation _ _ _ _ _ _ E2) as Hneg.
  assert (length pos <= length rows)%nat as Lp.
  { rewrite Hpos. apply length_filter. }
  assert (length neg <= length rows)%nat as Ln.
  { rewrite Hneg. apply length_filter. }
  destruct (Hfin _ Lp) as [Fp1 Fp2]. destruct (Hfin _ Ln) as [Fn1 Fn2].
  apply is_ok_value in Fp1 as [zp1 Fp1]. apply is_ok_value in Fp2 as [zp2 Fp2].
  apply is_ok_value in Fn1 as [zn1 Fn1]. apply is_ok_value in Fn2 as [zn2 Fn2].
  pose proof (scaled_nonneg _ _ _ Hr1 Fp1). pose proof (scaled_nonneg _ _ _ Hr2 Fp2).
  pose proof (scaled_nonneg _ _ _ Hr1 Fn1). pose proof (scaled_nonneg _ _ _ Hr2 Fn2).
  pose proof (split_bucket_parts ratios pos _ _ Hr1 Hr2 Fp1 Fp2) as Sp.
  pose proof (split_bucket_parts ratios neg _ _ Hr1 Hr2 Fn1 Fn2) as Sn.
  set (p_tr := Z.to_nat zp1) in *. set (p_va := Z.to_nat zp2) in *.
  set (n_tr := Z.to_nat zn1) in *. set (n_va := Z.to_nat zn2) in *.
  destruct (shuffle_ok rng randbelow randbelow_lt
              (take p_tr pos ++ take n_tr neg) g2) as (train & g3 & E3).
  destruct (shuffle_ok rng randbelow randbelow_lt
              (take p_va (drop p_tr pos) ++ take n_va (drop n_tr neg)) g3)
    as (val & g4 & E4).
  destruct (shuffle_ok rng randbelow randbelow_lt
              (drop (p_tr + p_va) pos ++ drop (n_tr + n_va) neg) g4)
    as (test & g5 & E5).
  exists pos, neg, p_tr, p_va, n_tr, n_va, train, val, test, g5.
  subst p_tr p_va n_tr n_va. rewrite !Z2Nat.id by done.
  repeat split; try done;
    try (eapply shuffle_Permutation; eassumption).
  unfold stratified_split. fold P N. rewrite E1. cbn [mbind result_bind].
  rewrite E2. cbn [mbind result_bind]. rewrite Sp. cbn [mbind result_bind].
  rewrite Sn. cbn [mbind result_bind]. rewrite E3. cbn [mbind result_bind].
  rewrite E4. cbn [mbind result_bind]. by rewrite E5.
Qed.

(** X6: the split is stratified.  With [n1] rows of label 1 and [n0] of
    label 0 in the pool, train holds [min(int(n1 * ratios[0]), n1)] rows of
    label 1 and [min(int(n0 * ratios[0]), n0)] of label 0, val holds the
    next [int(n * ratios[1])] of each label as far as they last, and test
    holds the rest of each. *)
Theorem stratified_split_class_counts (rows : list row) (seed : Z)
    (ratios : spec_float * spec_float * spec_float) (g0 : rng) :
  ratio_nonneg ratios.1.1 -> ratio_nonneg ratios.1.2 ->
  (forall n, (n <= length rows)%nat ->
     is_ok (scaled n ratios.1.1) = true /\ is_ok (scaled n ratios.1.2) = true) ->
  let n1 := length (filter (fun r => target r = 1) rows) in
  let n0 := length (filter (fun r => target r = 0) rows) in
  let ones (l : list row) := length (filter (fun r => target r = 1) l) in
  let zeros (l : list row) := length (filter (fun r => target r = 0) l) in
  exists p_tr p_va n_tr n_va train val test g,
    scaled n1 ratios.1.1 = Ok (Z.of_nat p_tr) /\
    scaled n1 ratios.1.2 = Ok (Z.of_nat p_va) /\
    scaled n0 ratios.1.1 = Ok (Z.of_nat n_tr) /\
    scaled n0 ratios.1.2 = Ok (Z.of_nat n_va) /\
    stratified_split rng seed_rng randbelow rows seed ratios g0
      = Ok (train, val, test, g) /\
    ones train = (p_tr `min` n1)%nat /\ zeros train = (n_tr `min` n0)%nat /\
    ones val = (p_va `min` (n1 - p_tr))%nat /\
    zeros val = (n_va `min` (n0 - n_tr))%nat /\
    ones test = (n1 - (p_tr + p_va))%nat /\
    zeros test = (n0 - (n_tr + n_va))%nat.
Proof.
  intros Hr1 Hr2 Hfin. cbv zeta.
  destruct (stratified_split_steps rows seed ratios g0 Hr1 Hr2 Hfin)
    as (pos & neg & p_tr & p_va & n_tr & n_va & train & val & test & g
        & Hpos & Hneg & S1 & S2 & S3 & S4 & Htr & Hva & Hte & Hs).
  assert (Forall (fun r => target r = 1) pos) as Fp.
  { rewrite Hpos. apply Forall_forall. intros r Hr.
    by apply list_elem_of_filter in Hr as [? _]. }
  assert (Forall (fun r => target r = 0) neg) as Fn.
  { rewrite Hneg. apply Forall_forall. intros r Hr.
    by apply list_elem_of_filter in Hr as [? _]. }
  pose proof (Permutation_length Hpos) as Lp.
  pose proof (Permutation_length Hneg) as Ln.
  rewrite <- Lp, <- Ln.
  exists p_tr, p_va, n_tr, n_va, train, val, test, g.
  destruct (Forall_take_drop _ pos p_tr p_va Fp) as (Fp1 & Fp2 & Fp3).
  destruct (Forall_take_drop _ neg n_tr n_va Fn) as (Fn1 & Fn2 & Fn3).
  destruct (filter_label_split 1 0 _ _ ltac:(done) Fp1 Fn1) as [T1 T0].
  destruct (filter_label_split 1 0 _ _ ltac:(done) Fp2 Fn2) as [V1 V0].
  destruct (filter_label_split 1 0 _ _ ltac:(done) Fp3 Fn3) as [E1 E0].
  do 5 (split; [done|]). repeat split.
  - by rewrite Htr, T1, length_take.
  - by rewrite Htr, T0, length_take.
  - by rewrite Hva, V1, length_take, length_drop.
  - by rewrite Hva, V0, length_take, length_drop.
  - by rewrite Hte, E1, length_drop.
  - by rewrite Hte, E0, length_drop.
Qed.

End Stratification.

Lemma stratified_split_class_counts_witness :
  exists train val test g,
    Transform.stratified_split Sample.rng Sample.seed_rng Sample.randbelow
      Sample.pool 123456 Transform.default_ratios 0%N
      = Py.Ok (train, val, test, g) /\
    length (filter (fun r => Transform.target r = 1) train) = 1%nat /\
    length (filter (fun r => Transform.target r = 0) train) = 2%nat.
Proof.
  destruct (stratified_split_class_counts Sample.rng Sample.seed_rng
              Sample.randbelow
              sample_randbelow_lt
              Sample.pool 123456 Transform.default_ratios 0%N)
    as (p_tr & p_va & n_tr & n_va & train & val & test & g
        & S1 & _ & S3 & _ & Hs & H1 & H0 & _).
  - reflexivity.
  - reflexivity.
  - intros n Hn. simpl in Hn.
    do 6 (destruct n as [|n]; [by vm_compute|]). lia.
  - exists train, val, test, g. split; [exact Hs|].
    match type of S1 with ?l = _ => assert (l = Py.Ok 1) as E1 by (by vm_compute) end.
    match type of S3 with ?l = _ => assert (l = Py.Ok 2) as E3 by (by vm_compute) end.
    rewrite E1 in S1. rewrite E3 in S3.
    injection S1 as S1. injection S3 as S3.
    rewrite H1, H0.
    assert (p_tr = 1%nat) as -> by lia. assert (n_tr = 2%nat) as -> by lia.
    split; reflexivity.
Defined.

Section OverlapAndIndex.
Import Py Augment Spec.

Lemma keep_mask_elem {A} (f : A -> bool) (l : list A) (w : A) :
  w ∈ keep (map f l) l <-> w ∈ l /\ f w = true.
Proof.
  induction l as [|a l IH]; simpl.
  - split; [by intros ?%elem_of_nil|by intros [?%elem_of_nil _]].
  - destruct (f a) eqn:Ha.
    + rewrite !elem_of_cons, IH. split.
      * intros [->|[? ?]]; auto.
      * intros [[->|?] ?]; auto.
    + rewrite elem_of_cons, IH. split.
      * intros [? ?]; auto.
      * intros [[->|?] ?]; [congruence|auto].
Qed.

(** X7: [remove_overlap_by_code] keeps of every column of the candidates
    the cells at the rows whose fingerprint is not a fingerprint of the base
    table, in their order, and nothing else: a fingerprint is among the rows
    kept exactly when it is a candidate's and not the base's. *)
Theorem remove_overlap_by_code_spec (base cand out : DataFrame) :
  remove_overlap_by_code base cand = Ok out ->
  exists bh ch,
    fingerprints base = Ok bh /\ fingerprints cand = Ok ch /\
    let mask := map (fun v => negb (bool_decide (v ∈ bh))) ch in
    nrows out = length (keep mask (seq 0 (nrows cand))) /\
    columns out =
      map (fun p => (p.1, keep mask p.2))
        (List.filter (fun p => negb (bool_decide (p.1 = "_h"))) (columns cand)) /\
    (forall w, w ∈ keep mask ch <-> w ∈ ch /\ w ∉ bh) /\
    (forall col : Series, sublist (keep mask col) col).
Proof.
  unfold remove_overlap_by_code, fingerprints. intros H.
  apply bind_Ok in H as (sb & Hsb & H). apply bind_Ok in H as (bh & Hbh & H).
  cbv beta zeta in H.
  apply bind_Ok in H as (sc & Hsc & H). apply bind_Ok in H as (ch & Hch & H).
  cbv beta zeta in H. unfold getitem at 1 in H. unfold setitem in H.
  cbn [columns nrows] in H. rewrite lookup_update_eq in H.
  cbn [mbind result_bind] in H. injection H as <-.
  exists bh, ch. rewrite Hsb, Hsc. cbn [mbind result_bind].
  split; [done|]. split; [done|]. cbv zeta.
  unfold drop_column, filter_rows. cbn [columns nrows].
  split; [done|]. split.
  { by rewrite filter_map_names, filter_update_dropped. }
  split; [|intros col; apply keep_sublist].
  intros w. rewrite keep_mask_elem. split.
  - intros [? Hw]. split; [done|].
    by apply negb_true_iff, bool_decide_eq_false in Hw.
  - intros [? Hw]. split; [done|].
    by apply negb_true_iff, bool_decide_eq_false.
Qed.

Lemma filter_names_absent (c : string) (cols : list (string * Series)) :
  c ∉ cols.*1 ->
  List.filter (fun p : string * Series => negb (bool_decide (p.1 = c))) cols
    = cols.
Proof.
  induction cols as [|[c' s] cols IH]; [done|].
  rewrite fmap_cons. cbn [fst]. intros [Hne Hc]%not_elem_of_cons. simpl.
  rewrite bool_decide_eq_false_2 by done. simpl. by rewrite IH.
Qed.

(** X8: [add_index_column] fails exactly on a table that has a column
    "index" already.  Otherwise the table it returns has "index" as its
    first column, holding 0, 1, 2, ... row by row, before the columns of the
    table given, which are unchanged: dropping the column gives the table
    back. *)
Theorem add_index_column_spec (df : DataFrame) :
  (has_column "index" df = true -> add_index_column df = Raise ValueError) /\
  (has_column "index" df = false ->
   exists df',
     add_index_column df = Ok df' /\
     names df' = "index" :: names df /\ nrows df' = nrows df /\
     getitem df' "index" =
       Ok (map (fun i => CInt (Z.of_nat i)) (seq 0 (nrows df))) /\
     (forall c, c <> "index" -> getitem df' c = getitem df c) /\
     drop_column "index" df' = df).
Proof.
  unfold add_index_column. split; intros H; rewrite H; [done|].
  eexists. split; [done|]. split; [done|]. split; [done|].
  split; [unfold getitem; cbn [columns lookup_column]; by rewrite decide_True|].
  split.
  - intros c Hc. unfold getitem. cbn [columns lookup_column].
    by rewrite decide_False.
  - unfold drop_column. cbn [columns nrows filter]. simpl.
    rewrite filter_names_absent; [by destruct df|].
    by apply bool_decide_eq_false in H.
Qed.

End OverlapAndIndex.

Lemma remove_overlap_by_code_spec_witness :
  exists out bh ch,
    Augment.remove_overlap_by_code Sample.real_val Sample.synth_pool
      = Py.Ok out /\
    Spec.fingerprints Sample.real_val = Py.Ok bh /\
    Spec.fingerprints Sample.synth_pool = Py.Ok ch /\
    forall w, w ∈ Augment.keep (map (fun v => negb (bool_decide (v ∈ bh))) ch) ch
              <-> w ∈ ch /\ w ∉ bh.
Proof.
  destruct (Augment.remove_overlap_by_code Sample.real_val Sample.synth_pool)
    as [out|e] eqn:E; [|vm_compute in E; discriminate E].
  destruct (remove_overlap_by_code_spec Sample.real_val Sample.synth_pool out E)
    as (bh & ch & Hb & Hc & _ & _ & Hw & _).
  exists out, bh, ch. split; [reflexivity|]. split; [exact Hb|].
  split; [exact Hc|exact Hw].
Defined.

Section NormaliserFailure.
Import Py Augment Spec.

Variable float_repr : spec_float -> string.
Variable numeric_of_string : string -> option number.
Variable astype_str_keeps_na : bool.
Variable cast_overflow : spec_float -> Z.

Lemma mapM_Raise {A B} (f : A -> result B) (l : list A) (e : exn) :
  mapM f l = Raise e -> exists a, a ∈ l /\ f a = Raise e.
Proof.
  induction l as [|a l IH]; [done|]. simpl.
  destruct (f a) as [b|e'] eqn:Hf; simpl.
  - destruct (mapM f l) as [k|e'] eqn:Hm; [done|]. intros [= ->].
    destruct (IH eq_refl) as (a' & ? & ?). exists a'. split; [by right|done].
  - intros [= ->]. exists a. split; [by left|done].
Qed.

Lemma mapM_Ok_all {A B} (f : A -> result B) (l : list A) (k : list B) :
  mapM f l = Ok k -> forall a, a ∈ l -> exists b, f a = Ok b.
Proof.
  intros H%mapM_Ok_Forall2 a Ha.
  apply list_elem_of_lookup in Ha as [i Hi].
  destruct (Forall2_lookup_l _ _ _ _ _ H Hi) as (b & _ & Hb). eauto.
Qed.

(** The label conversion fails on the infinities alone. *)
Lemma label_cell_raises (v : cell) :
  match astype_int cast_overflow (fillna (CInt 0) (to_numeric numeric_of_string v)) with
  | Ok w => forall s, to_numeric numeric_of_string v <> CFloat (S754_infinity s)
  | Raise e =>
      e = ValueError /\
      exists s, to_numeric numeric_of_string v = CFloat (S754_infinity s)
  end.
Proof.
  assert (forall u, (forall t, u <> CStr t) ->
            match astype_int cast_overflow (fillna (CInt 0) u) with
            | Ok w => forall s, u <> CFloat (S754_infinity s)
            | Raise e => e = ValueError /\ exists s, u = CFloat (S754_infinity s)
            end) as Hu.
  { intros [t|z|b|[s|s| |s m e]] Ht; simpl; try done; eauto.
    by destruct (Ht t). }
  apply Hu. intros t. unfold to_numeric. destruct v; try done.
  by destruct (numeric_of_string s) as [[z|x]|].
Qed.

(** X9: the schema normaliser fails in one way only, with [ValueError], and
    exactly when the target column (filled with "-" when it is missing)
    holds a value that reads as an infinity; every other table is
    normalised. *)
Theorem ensure_reposvul_schema_raises (df : DataFrame) :
  match ensure_reposvul_schema float_repr numeric_of_string
          astype_str_keeps_na cast_overflow df with
  | Ok df' =>
      forall v s, v ∈ column_or_missing df "target" ->
                  to_numeric numeric_of_string v <> CFloat (S754_infinity s)
  | Raise e =>
      e = ValueError /\
      exists v s, v ∈ column_or_missing df "target" /\
                  to_numeric numeric_of_string v = CFloat (S754_infinity s)
  end.
Proof.
  rewrite ensure_reposvul_schema_eq, mapM_map.
  destruct (mapM _ (column_or_missing df "target")) as [t|e] eqn:Hm;
    cbn [mbind result_bind].
  - intros v s Hv. destruct (mapM_Ok_all _ _ _ Hm v Hv) as [w Hw].
    pose proof (label_cell_raises v) as H. cbv beta in Hw. rewrite Hw in H.
    apply H.
  - apply mapM_Raise in Hm as (v & Hv & Hr).
    pose proof (label_cell_raises v) as H. cbv beta in Hr. rewrite Hr in H.
    destruct H as [-> [s Hs]]. split; [done|]. by exists v, s.
Qed.

End NormaliserFailure.

Section Fingerprint.
Import Py Spec.

Lemma sha_round_length (st : list Z) (kw : Z * Z) :
  length (sha_round st kw) = length st.
Proof. by destruct st as [|a [|b [|c [|d [|e [|f [|g [|h [|? ?]]]]]]]]]. Qed.

Lemma fold_sha_round_length (kws : list (Z * Z)) (st : list Z) :
  length (fold_left sha_round kws st) = length st.
Proof.
  revert st. induction kws as [|kw kws IH]; intros st; simpl; [done|].
  by rewrite IH, sha_round_length.
Qed.

Lemma compress_length (h block : list Z) : length (compress h block) = length h.
Proof.
  unfold compress. rewrite length_map, length_combine, fold_sha_round_length.
  lia.
Qed.

Lemma sha256_length (msg : list Z) : length (sha256 msg) = 8%nat.
Proof.
  unfold sha256. cbv zeta.
  generalize (blocks_of (length (words_of (length (pad msg)) (pad msg)))
                (words_of (length (pad msg)) (pad msg))).
  intros bs. assert (length initial_hash = 8%nat) as H by reflexivity.
  revert H. generalize initial_hash. induction bs as [|b bs IH]; intros h Hh.
  - done.
  - simpl. apply IH. by rewrite compress_length.
Qed.

Lemma length_concat_words (ws : list Z) :
  length (concat (map hex_of_word ws)) = (8 * length ws)%nat.
Proof.
  induction ws as [|w ws IH]; [done|]. cbn [map concat].
  rewrite length_app, IH. unfold hex_of_word. rewrite length_map, length_seq.
  simpl. lia.
Qed.

Lemma length_string_of_list_ascii (l : list ascii) :
  String.length (string_of_list_ascii l) = length l.
Proof. induction l as [|c l IH]; simpl; [done|]. by rewrite IH. Qed.

Lemma hex_digit_range (d : Z) :
  0 <= d < 16 ->
  In (hex_digit d) (list_ascii_of_string "0123456789abcdef").
Proof.
  intros H.
  assert (d = 0 \/ d = 1 \/ d = 2 \/ d = 3 \/ d = 4 \/ d = 5 \/ d = 6 \/ d = 7 \/
          d = 8 \/ d = 9 \/ d = 10 \/ d = 11 \/ d = 12 \/ d = 13 \/ d = 14 \/
          d = 15) as Hd by lia.
  repeat destruct Hd as [->|Hd]; try subst d; vm_compute; tauto.
Qed.

(** X10: a fingerprint is a text of 64 characters, each of them one of
    the digits 0-9 and the letters a-f, whatever text it is made from. *)
Theorem stable_hash_format (text : string) :
  String.length (Augment.stable_hash text) = 64%nat /\
  Forall (fun c => In c (list_ascii_of_string "0123456789abcdef"))
         (list_ascii_of_string (Augment.stable_hash text)).
Proof.
  unfold Augment.stable_hash, hexdigest. split.
  - by rewrite length_string_of_list_ascii, length_concat_words, sha256_length.
  - rewrite list_ascii_of_string_of_list_ascii.
    apply Forall_concat, Forall_map, Forall_true. intros w.
    unfold hex_of_word. apply Forall_map, Forall_true. intros i.
    apply hex_digit_range. apply Z.mod_pos_bound. lia.
Qed.

End Fingerprint.

